(** * FilterControl: applied-filter reconciliation and label resolution

    A shallow embedding of the logic of
    [src/components/ResourceList/components/FilterControl/FilterControl.tsx]:
    the two handlers that add and remove applied filters, the label
    computation [getFilterLabel] / [findFilterLabelByType], the helpers
    [idFromFilter] and [formatDateForLabelDisplay], and of [render] the list
    of applied filters with the callbacks of [getRemoveFilterCallback].

    Arrays the component receives and creates live in a store of array
    objects, so that "a new array" and "the same array" are different
    statements.  Calls into the host (the translation object [intl] and the
    [Date] built-in) are pure functions of a host record, and every call is
    written to a log next to the value it returns. *)

From Stdlib Require Import ZArith Lia Ascii.
From stdpp Require Import base option strings list gmap.

Local Open Scope string_scope.
Local Open Scope list_scope.
Local Open Scope Z_scope.

(** ** The fragment of the language the component relies on *)

Module JS.

(** [Array.prototype.find]: the first element satisfying [p], [None] for
    [undefined]. *)
Fixpoint find {A : Type} (p : A → bool) (l : list A) : option A :=
  match l with
  | [] => None
  | x :: l' => if p x then Some x else find p l'
  end.

(** [Array.prototype.findIndex]: the index of the first element
    satisfying [p], [-1] when there is none. *)
Fixpoint findIndex_from {A : Type} (p : A → bool) (i : Z) (l : list A) : Z :=
  match l with
  | [] => -1
  | x :: l' => if p x then i else findIndex_from p (i + 1) l'
  end.

Definition findIndex {A : Type} (p : A → bool) (l : list A) : Z :=
  findIndex_from p 0 l.

(** [Array.prototype.slice(start, end)] on integer arguments: a negative
    bound counts from the end, both bounds are clamped to the length. *)
Definition clamp (len i : Z) : Z :=
  if i <? 0 then Z.max (len + i) 0 else Z.min i len.

Definition slice {A : Type} (l : list A) (start end_ : Z) : list A :=
  let len := Z.of_nat (length l) in
  let k := clamp len start in
  let final := clamp len end_ in
  take (Z.to_nat (Z.max (final - k) 0)) (drop (Z.to_nat k) l).

(** [Array.prototype.join(sep)] on an array of [string | undefined]: an
    [undefined] element contributes the empty string. *)
Definition toJoinString (o : option string) : string := default "" o.

Fixpoint join_rest (sep : string) (l : list (option string)) : string :=
  match l with
  | [] => ""
  | o :: l' => sep +:+ toJoinString o +:+ join_rest sep l'
  end.

Definition join (sep : string) (l : list (option string)) : string :=
  match l with
  | [] => ""
  | o :: l' => toJoinString o +:+ join_rest sep l'
  end.

(** Truthiness of a [string | undefined]: [undefined] and the empty
    string are falsy. *)
Definition truthy (o : option string) : bool :=
  match o with
  | Some s => negb (String.eqb s "")
  | None => false
  end.

(** [a || b] on two [string | undefined] operands. *)
Definition or (a b : option string) : option string :=
  if truthy a then a else b.

(** [a === b] between a string and a [string | undefined]. *)
Definition strict_eq (a : string) (b : option string) : bool :=
  match b with
  | Some s => String.eqb a s
  | None => false
  end.

(** [s.replace(/-/g, '/')]. *)
Fixpoint replace_dashes (s : string) : string :=
  match s with
  | EmptyString => EmptyString
  | String c s' =>
      String (if Ascii.eqb c "-"%char then "/"%char else c) (replace_dashes s')
  end.

End JS.

(** ** Data model *)

(** Modelled from the spec: the declarations of [./types] ([AppliedFilter],
    [Filter], [FilterType] and the option type of a select filter) are not
    among the sources.  An applied filter has a [key], a [value] and an
    optional [label]. *)
Module AppliedFilter.
Record t : Type := Build { key : string; value : string; label : option string }.
End AppliedFilter.

(** Modelled from the spec: the kinds of filter definition of [./types];
    only [Select] and [DateSelector] are named by the component. *)
Inductive FilterType : Type := Select | DateSelector | OtherType.

Definition FilterType_eqb (a b : FilterType) : bool :=
  match a, b with
  | Select, Select | DateSelector, DateSelector | OtherType, OtherType => true
  | _, _ => false
  end.

(** Modelled from the spec: an option of a select filter is a bare string or
    a structured [{value, label}]. *)
Inductive SelectOption : Type :=
| OptionString (s : string)
| OptionObject (value label : string).

(** Modelled from the spec: a filter definition of [./types].  The component
    reads [minKey] and [maxKey] off every definition (its callback takes the
    definition as [any]), so the two fields are optional on all of them;
    [options] is read on [Select] definitions only. *)
Module Filter.
Record t : Type := Build {
  key : string;
  label : string;
  operatorText : option string;
  type : FilterType;
  options : list SelectOption;
  minKey : option string;
  maxKey : option string
}.
End Filter.

(** ** The store of array objects *)

(** An array of applied filters is an object: the component is handed a
    reference and creates new arrays with array literals. *)
Definition loc : Type := nat.

Abbreviation Store := (gmap loc (list AppliedFilter.t)).

(** An array literal: a reference no array of the store has, bound to the
    elements. *)
Definition alloc (elems : list AppliedFilter.t) (σ : Store) : loc * Store :=
  let r := fresh (dom σ) in (r, <[r := elems]> σ).

(** ** The host *)

(** The two members of [intl] the component calls.  The replacements
    argument of [translate] is optional. *)
Record Intl : Type := {
  intl_translate : string → option (list (string * string)) → string;
  intl_translationKeyExists : string → bool
}.

(** The [Date] built-in: the time value of [new Date(s)] in milliseconds
    ([None] is the [NaN] of an invalid date) and [toLocaleDateString] of a
    date with that time value. *)
Record DateHost : Type := {
  Date_time : string → option Z;
  Date_toLocaleDateString : option Z → string
}.

Inductive HostCall : Type :=
| CallTranslate (id : string) (replacements : option (list (string * string)))
| CallTranslationKeyExists (id : string)
| CallNewDate (s : string)
| CallToLocaleDateString (time : option Z).

(** A value together with the host calls made to compute it, in order. *)
Definition Traced (A : Type) : Type := A * list HostCall.

#[global] Instance Traced_ret : MRet Traced := λ A a, (a, []).

#[global] Instance Traced_bind : MBind Traced := λ A B k m,
  let '(a, t1) := m in
  let '(b, t2) := k a in
  (b, t1 ++ t2).

Definition translate (intl : Intl) (id : string)
    (replacements : option (list (string * string))) : Traced string :=
  (intl_translate intl id replacements, [CallTranslate id replacements]).

Definition translationKeyExists (intl : Intl) (id : string) : Traced bool :=
  (intl_translationKeyExists intl id, [CallTranslationKeyExists id]).

Definition newDate (date : DateHost) (s : string) : Traced (option Z) :=
  (Date_time date s, [CallNewDate s]).

Definition toLocaleDateString (date : DateHost) (time : option Z) : Traced string :=
  (Date_toLocaleDateString date time, [CallToLocaleDateString time]).

(** ** The component *)

(** The props the logic reads.  [onFiltersChange] records whether the host
    registered the callback; what the callback is called with is the result
    of a handler. *)
Record Props : Type := {
  appliedFilters : option loc;
  filters : option (list Filter.t);
  onFiltersChange : bool;
  intl : Intl
}.

(** [idFromFilter] *)
Definition idFromFilter (appliedFilter : AppliedFilter.t) : string :=
  AppliedFilter.key appliedFilter +:+ "-" +:+ AppliedFilter.value appliedFilter.

(** The elements of [appliedFilters] after the destructuring
    [{appliedFilters = []} = this.props].  The default is an empty array
    of its own, which the handlers only read. *)
Definition appliedFilters_elems (props : Props) (σ : Store) : list AppliedFilter.t :=
  match appliedFilters props with
  | Some r => default [] (σ !! r)
  | None => []
  end.

(** [handleAddFilter].  The result is the argument [onFiltersChange] was
    called with, [None] when it was not called, and the store after the
    handler. *)
Definition handleAddFilter (props : Props) (newFilter : AppliedFilter.t)
    (σ : Store) : option loc * Store :=
  let appliedFilters := appliedFilters_elems props σ in
  if negb (onFiltersChange props) then (None, σ)
  else
    let foundFilter :=
      JS.find (λ appliedFilter,
                 String.eqb (idFromFilter appliedFilter) (idFromFilter newFilter))
              appliedFilters in
    match foundFilter with
    | Some _ => (None, σ)
    | None =>
        let '(newAppliedFilters, σ') := alloc (appliedFilters ++ [newFilter]) σ in
        (Some newAppliedFilters, σ')
    end.

(** [handleRemoveFilter] *)
Definition handleRemoveFilter (props : Props) (filterId : string)
    (σ : Store) : option loc * Store :=
  let appliedFilters := appliedFilters_elems props σ in
  if negb (onFiltersChange props) then (None, σ)
  else
    let foundIndex :=
      JS.findIndex (λ appliedFilter, String.eqb (idFromFilter appliedFilter) filterId)
                   appliedFilters in
    let '(newAppliedFilters, σ') :=
      if 0 <=? foundIndex
      then alloc (JS.slice appliedFilters 0 foundIndex
                  ++ JS.slice appliedFilters (foundIndex + 1)
                       (Z.of_nat (length appliedFilters))) σ
      else alloc appliedFilters σ in
    (Some newAppliedFilters, σ').

(** [isNaN] of a time value. *)
Definition isNaN (time : option Z) : bool :=
  match time with
  | None => true
  | Some _ => false
  end.

(** [formatDateForLabelDisplay] *)
Definition formatDateForLabelDisplay (host : DateHost) (date : string) : Traced string :=
  time ← newDate host date;
  if isNaN time then mret date
  else
    time' ← newDate host (JS.replace_dashes date);
    toLocaleDateString host time'.

(** The callback [getFilterLabel] passes to [filters.find], for the [key]
    of the applied filter. *)
Definition matchesKey (key : string) (filter : Filter.t) : bool :=
  let minKey := Filter.minKey filter in
  let maxKey := Filter.maxKey filter in
  if JS.truthy (JS.or minKey maxKey)
  then String.eqb (Filter.key filter) key
       || JS.strict_eq key minKey
       || JS.strict_eq key maxKey
  else String.eqb (Filter.key filter) key.

(** The lookup of [getFilterLabel]: [filters.find] with that callback. *)
Definition findDefinition (filters : list Filter.t) (key : string) : option Filter.t :=
  JS.find (matchesKey key) filters.

(** Truthiness of what [options.find] returns: an object is truthy, a
    string is truthy unless empty, [undefined] is falsy. *)
Definition truthy_option (o : option SelectOption) : bool :=
  match o with
  | Some (OptionString s) => negb (String.eqb s "")
  | Some (OptionObject _ _) => true
  | None => false
  end.

(** [findFilterLabelByType] *)
Definition findFilterLabelByType (host : DateHost) (props : Props)
    (filter : Filter.t) (appliedFilter : AppliedFilter.t) : Traced string :=
  let intl := intl props in
  let appliedFilterValue := AppliedFilter.value appliedFilter in
  let afterSelect : Traced string :=
    if FilterType_eqb (Filter.type filter) DateSelector then
      if String.eqb (Filter.key filter) (AppliedFilter.key appliedFilter) then
        let filterLabelKey :=
          "Polaris.ResourceList.DateSelector.FilterLabelForValue."
          +:+ AppliedFilter.value appliedFilter in
        known ← translationKeyExists intl filterLabelKey;
        if known : bool then translate intl filterLabelKey None
        else mret (AppliedFilter.value appliedFilter)
      else if JS.strict_eq (AppliedFilter.key appliedFilter) (Filter.maxKey filter) then
        date ← formatDateForLabelDisplay host (AppliedFilter.value appliedFilter);
        translate intl
          "Polaris.ResourceList.DateSelector.FilterLabelForValue.on_or_before"
          (Some [("date", date)])
      else if JS.strict_eq (AppliedFilter.key appliedFilter) (Filter.minKey filter) then
        date ← formatDateForLabelDisplay host (AppliedFilter.value appliedFilter);
        translate intl
          "Polaris.ResourceList.DateSelector.FilterLabelForValue.on_or_after"
          (Some [("date", date)])
      else mret appliedFilterValue
    else mret appliedFilterValue in
  if FilterType_eqb (Filter.type filter) Select then
    let foundFilterOption :=
      JS.find (λ option,
                 match option with
                 | OptionString s => String.eqb s appliedFilterValue
                 | OptionObject value _ => String.eqb value appliedFilterValue
                 end)
              (Filter.options filter) in
    if truthy_option foundFilterOption then
      match foundFilterOption with
      | Some (OptionString s) => mret s
      | Some (OptionObject _ label) => mret label
      | None => afterSelect
      end
    else afterSelect
  else afterSelect.

(** [getFilterLabel] *)
Definition getFilterLabel (host : DateHost) (props : Props)
    (appliedFilter : AppliedFilter.t) : Traced string :=
  let key := AppliedFilter.key appliedFilter in
  let value := AppliedFilter.value appliedFilter in
  let label := AppliedFilter.label appliedFilter in
  let afterLabel : Traced string :=
    let filters := default [] (filters props) in
    let filter := JS.find (matchesKey key) filters in
    match filter with
    | None => mret value
    | Some filter =>
        filterLabelByType ← findFilterLabelByType host props filter appliedFilter;
        let filterLabels :=
          [Some (Filter.label filter); Filter.operatorText filter; Some filterLabelByType] in
        mret (JS.join " " filterLabels)
    end in
  match label with
  | Some l => if JS.truthy label then mret l else afterLabel
  | None => afterLabel
  end.

(** ** Evaluation on small inputs *)

Module Examples.

Definition en : Intl := {|
  intl_translate id replacements :=
    match replacements with
    | Some [(_, d)] =>
        if String.eqb id "Polaris.ResourceList.DateSelector.FilterLabelForValue.on_or_before"
        then "on or before " +:+ d
        else if String.eqb id "Polaris.ResourceList.DateSelector.FilterLabelForValue.on_or_after"
        then "on or after " +:+ d
        else id
    | _ =>
        if String.eqb id "Polaris.ResourceList.DateSelector.FilterLabelForValue.past_week"
        then "in the last week"
        else id
    end;
  intl_translationKeyExists id :=
    String.eqb id "Polaris.ResourceList.DateSelector.FilterLabelForValue.past_week"
|}.

(** A [Date] that knows two spellings of one day and nothing else. *)
Definition dates : DateHost := {|
  Date_time s :=
    if String.eqb s "2020-01-15" then Some 1579046400000
    else if String.eqb s "2020/01/15" then Some 1579064400000
    else None;
  Date_toLocaleDateString time :=
    match time with
    | Some 1579046400000 => "1/14/2020"
    | Some 1579064400000 => "1/15/2020"
    | _ => "Invalid Date"
    end
|}.

Definition small : AppliedFilter.t := AppliedFilter.Build "type" "small" None.
Definition large : AppliedFilter.t := AppliedFilter.Build "type" "large" None.
Definition before : AppliedFilter.t := AppliedFilter.Build "before" "2020-01-15" None.
Definition custom : AppliedFilter.t := AppliedFilter.Build "type" "small" (Some "Custom").
Definition a_bc : AppliedFilter.t := AppliedFilter.Build "a" "b-c" None.
Definition ab_c : AppliedFilter.t := AppliedFilter.Build "a-b" "c" None.

Definition sizes : Filter.t :=
  Filter.Build "type" "Size" (Some "is") Select
    [OptionString "small"; OptionObject "large" "Large"] None None.
Definition created : Filter.t :=
  Filter.Build "created" "Created" None DateSelector [] (Some "after") (Some "before").
(** A date definition whose [minKey] is present and empty. *)
Definition updated : Filter.t :=
  Filter.Build "updated" "Updated" None DateSelector [] (Some "") None.

Definition props (r : loc) : Props := {|
  appliedFilters := Some r;
  filters := Some [sizes; created];
  onFiltersChange := true;
  intl := en
|}.

Definition σ0 : Store := {[ 0%nat := [small; before] ]}.

End Examples.

(** ** What the host holds *)

(** The host passes an array in and the handler answers by calling
    [onFiltersChange] with an array or by not calling it; a host that keeps
    what it is called back with then holds the following array. *)
Definition held (props : Props) (called_with : option loc) : option loc :=
  match called_with with
  | Some r => Some r
  | None => appliedFilters props
  end.

Definition with_appliedFilters (props : Props) (r : option loc) : Props :=
  {| appliedFilters := r;
     filters := filters props;
     onFiltersChange := onFiltersChange props;
     intl := intl props |}.

(** A host state: the props it passes and the store. *)
Abbreviation HostState := (Props * Store)%type.

(** The applied filters of a host state, in order. *)
Definition collection (s : HostState) : list AppliedFilter.t :=
  appliedFilters_elems s.1 s.2.

(** The next state of such a host after asking to add a filter, or to
    remove the filter with some id. *)
Definition add (s : HostState) (newFilter : AppliedFilter.t) : HostState :=
  let '(called_with, σ') := handleAddFilter s.1 newFilter s.2 in
  (with_appliedFilters s.1 (held s.1 called_with), σ').

Definition remove (s : HostState) (filterId : string) : HostState :=
  let '(called_with, σ') := handleRemoveFilter s.1 filterId s.2 in
  (with_appliedFilters s.1 (held s.1 called_with), σ').

(** Some entry of [C] has the composite id [id]. *)
Definition has_id (C : list AppliedFilter.t) (id : string) : Prop :=
  ∃ g, g ∈ C ∧ idFromFilter g = id.

(** ** The lookup of a definition, in words *)

(** An optional string that is there and not empty. *)
Definition nonempty (o : option string) : Prop :=
  ∃ s, o = Some s ∧ s ≠ "".

(** The definition [filter] governs [key]: its [key] is the key, or it has
    a non-empty [minKey] or [maxKey] and one of the two is the key. *)
Definition governs (key : string) (filter : Filter.t) : Prop :=
  Filter.key filter = key
  ∨ ((nonempty (Filter.minKey filter) ∨ nonempty (Filter.maxKey filter))
     ∧ (Filter.minKey filter = Some key ∨ Filter.maxKey filter = Some key)).

(** The lookup as the specification words it: a definition whose [minKey]
    or [maxKey] is present matches on [key], [minKey] or [maxKey], any other
    on [key]; the first match in catalog order is the result. *)
Definition present (o : option string) : bool :=
  match o with
  | Some _ => true
  | None => false
  end.

Definition spec_matches (key : string) (f : Filter.t) : bool :=
  if present (Filter.minKey f) || present (Filter.maxKey f)
  then bool_decide (Filter.key f = key ∨ Filter.minKey f = Some key ∨ Filter.maxKey f = Some key)
  else bool_decide (Filter.key f = key).

Definition spec_findDefinition (catalog : list Filter.t) (key : string) : option Filter.t :=
  List.find (spec_matches key) catalog.

(** ** Rendering the applied filters *)

(** The closure [getRemoveFilterCallback] returns for a filter id,
    [() => this.handleRemoveFilter(filterId)].  The method is memoized on
    its argument: one id, one closure. *)
Inductive RemoveFilterCallback : Type :=
| RemoveFilter (filterId : string).

(** [getRemoveFilterCallback] *)
Definition getRemoveFilterCallback (filterId : string) : RemoveFilterCallback :=
  RemoveFilter filterId.

(** Calling the closure: [handleRemoveFilter] on the props of the moment of
    the call. *)
Definition call (callback : RemoveFilterCallback) (props : Props) (σ : Store)
    : option loc * Store :=
  match callback with
  | RemoveFilter filterId => handleRemoveFilter props filterId σ
  end.

(** The list item [render] builds for one applied filter: the [key] of the
    [li], and the [onRemove], [disabled] and children of its [Tag]. *)
Record AppliedFilterItem : Type := {
  item_key : string;
  tag_onRemove : RemoveFilterCallback;
  tag_disabled : bool;
  tag_children : string
}.

(** [appliedFiltersMarkup] of [render], for the [selectMode] of the
    context. *)
Definition appliedFiltersMarkup (host : DateHost) (props : Props) (selectMode : bool)
    (σ : Store) : Traced (list AppliedFilterItem) :=
  mapM (λ appliedFilter,
          activeFilterLabel ← getFilterLabel host props appliedFilter;
          let filterId := idFromFilter appliedFilter in
          mret {| item_key := filterId;
                  tag_onRemove := getRemoveFilterCallback filterId;
                  tag_disabled := selectMode;
                  tag_children := activeFilterLabel |})
       (appliedFilters_elems props σ).


(** The next state of a host that keeps what it is called back with, after
    the [onRemove] of a tag was called. *)
Definition press (s : HostState) (callback : RemoveFilterCallback) : HostState :=
  let '(called_with, σ') := call callback s.1 s.2 in
  (with_appliedFilters s.1 (held s.1 called_with), σ').

(** ** Sequences of requests *)

Inductive Request : Type :=
| Add (newFilter : AppliedFilter.t)
| Remove (filterId : string).

Definition step (s : HostState) (request : Request) : HostState :=
  match request with
  | Add newFilter => add s newFilter
  | Remove filterId => remove s filterId
  end.

Definition run (s : HostState) (requests : list Request) : HostState :=
  foldl step s requests.

(** The composite ids of a collection, in order. *)
Definition ids (C : list AppliedFilter.t) : list string :=
  idFromFilter <$> C.

(** A list without its first entry that has the id. *)
Fixpoint without_first (filterId : string) (C : list AppliedFilter.t)
    : list AppliedFilter.t :=
  match C with
  | [] => []
  | g :: C' =>
      if String.eqb (idFromFilter g) filterId then C'
      else g :: without_first filterId C'
  end.

(** The value and the label of an option of a select filter. *)
Definition option_value (option : SelectOption) : string :=
  match option with
  | OptionString s => s
  | OptionObject value _ => value
  end.

Definition option_label (option : SelectOption) : string :=
  match option with
  | OptionString s => s
  | OptionObject _ label => label
  end.

(** The host calls that are calls of [intl.translate]. *)
Definition is_translate (call : HostCall) : bool :=
  match call with
  | CallTranslate _ _ => true
  | _ => false
  end.

(** ** Lemmas on the array operations *)

Section find.
Context {A : Type} (p : A → bool).

Lemma find_None (l : list A) :
  JS.find p l = None ↔ Forall (λ x, p x = false) l.
Proof.
  induction l as [|x l IH]; simpl.
  - split; [constructor | done].
  - destruct (p x) eqn:Hx.
    + split; [done | intros H; inversion H; congruence].
    + rewrite IH. split; [by constructor | by inversion 1].
Qed.

Lemma find_Some (l : list A) (x : A) :
  JS.find p l = Some x ↔
  ∃ l1 l2, l = l1 ++ x :: l2 ∧ Forall (λ y, p y = false) l1 ∧ p x = true.
Proof.
  induction l as [|y l IH]; simpl.
  - split; [done | intros ([|??] & ? & ? & _); done].
  - destruct (p y) eqn:Hy.
    + split.
      * intros [= ->]. by exists [], l.
      * intros ([|z l1] & l2 & Hl & Hl1 & Hx); simplify_eq/=; [done|].
        inversion Hl1; congruence.
    + rewrite IH. split.
      * intros (l1 & l2 & -> & Hl1 & Hx). exists (y :: l1), l2.
        split_and!; [done | by constructor | done].
      * intros ([|z l1] & l2 & Hl & Hl1 & Hx); simplify_eq/=; [congruence|].
        exists l1, l2. inversion Hl1; by subst.
Qed.

Lemma find_is_Some (l : list A) :
  is_Some (JS.find p l) ↔ ∃ x, x ∈ l ∧ p x = true.
Proof.
  split.
  - intros [x (l1 & l2 & -> & _ & Hx)%find_Some]. exists x. split; [set_solver | done].
  - intros (x & Hin & Hx). destruct (JS.find p l) eqn:Hf; [done|].
    apply find_None in Hf. rewrite Forall_forall in Hf.
    specialize (Hf x Hin). congruence.
Qed.

Lemma findIndex_from_None (i : Z) (l : list A) :
  Forall (λ x, p x = false) l → JS.findIndex_from p i l = -1.
Proof.
  intros H. revert i. induction H as [|x l Hx _ IH]; intros i; simpl; [done|].
  by rewrite Hx.
Qed.

Lemma findIndex_from_first (i : Z) (l1 l2 : list A) (x : A) :
  Forall (λ y, p y = false) l1 → p x = true →
  JS.findIndex_from p i (l1 ++ x :: l2) = i + Z.of_nat (length l1).
Proof.
  intros H Hx. revert i. induction H as [|y l1 Hy _ IH]; intros i; simpl.
  - rewrite Hx. lia.
  - rewrite Hy, IH. lia.
Qed.

Lemma findIndex_None (l : list A) :
  Forall (λ x, p x = false) l → JS.findIndex p l = -1.
Proof. apply findIndex_from_None. Qed.

Lemma findIndex_first (l1 l2 : list A) (x : A) :
  Forall (λ y, p y = false) l1 → p x = true →
  JS.findIndex p (l1 ++ x :: l2) = Z.of_nat (length l1).
Proof. intros. unfold JS.findIndex. by rewrite findIndex_from_first. Qed.

(** Every list splits at its first element satisfying [p], or has none. *)
Lemma first_split (l : list A) :
  Forall (λ x, p x = false) l ∨
  ∃ l1 x l2, l = l1 ++ x :: l2 ∧ Forall (λ y, p y = false) l1 ∧ p x = true.
Proof.
  destruct (JS.find p l) as [x|] eqn:Hf.
  - right. apply find_Some in Hf as (l1 & l2 & ?). by exists l1, x, l2.
  - left. by apply find_None.
Qed.
End find.

Section slice.
Context {A : Type}.

Lemma slice_prefix (l : list A) (n : nat) :
  (n ≤ length l)%nat → JS.slice l 0 (Z.of_nat n) = take n l.
Proof.
  intros Hn. unfold JS.slice, JS.clamp.
  replace (0 <? 0) with false by done.
  destruct (Z.ltb_spec (Z.of_nat n) 0) as [?|_]; [lia|].
  rewrite Z.min_l, Z.min_l by lia.
  replace (Z.to_nat 0) with 0%nat by done. rewrite drop_0.
  f_equal. lia.
Qed.

Lemma slice_suffix (l : list A) (n : nat) :
  (n ≤ length l)%nat → JS.slice l (Z.of_nat n) (Z.of_nat (length l)) = drop n l.
Proof.
  intros Hn. unfold JS.slice, JS.clamp.
  destruct (Z.ltb_spec (Z.of_nat n) 0) as [?|_]; [lia|].
  destruct (Z.ltb_spec (Z.of_nat (length l)) 0) as [?|_]; [lia|].
  rewrite Z.min_l, Z.min_l by lia.
  rewrite Nat2Z.id. apply take_ge. rewrite length_drop. lia.
Qed.

(** The two slices around index [length l1] of [l1 ++ x :: l2]. *)
Lemma slice_around (l1 l2 : list A) (x : A) :
  let l := l1 ++ x :: l2 in
  let i := Z.of_nat (length l1) in
  JS.slice l 0 i ++ JS.slice l (i + 1) (Z.of_nat (length l)) = l1 ++ l2.
Proof.
  intros l i. subst l i.
  rewrite slice_prefix by (rewrite length_app; simpl; lia).
  replace (Z.of_nat (length l1) + 1) with (Z.of_nat (S (length l1))) by lia.
  rewrite slice_suffix by (rewrite length_app; simpl; lia).
  rewrite take_app_length.
  f_equal. rewrite (cons_middle x l1 l2), app_assoc.
  apply drop_app_length'. rewrite length_app. simpl. lia.
Qed.
End slice.

(** ** The handlers *)

Lemma idFromFilter_eqb (g : AppliedFilter.t) (id : string) :
  String.eqb (idFromFilter g) id = false ↔ idFromFilter g ≠ id.
Proof. apply String.eqb_neq. Qed.

Lemma not_has_id (C : list AppliedFilter.t) (id : string) :
  ¬ has_id C id ↔ Forall (λ g, String.eqb (idFromFilter g) id = false) C.
Proof.
  rewrite Forall_forall. unfold has_id. split.
  - intros H g Hg. apply idFromFilter_eqb. intros Heq. apply H. by exists g.
  - intros H (g & Hg & Heq). by apply H, idFromFilter_eqb in Hg.
Qed.

Lemma has_id_dec (C : list AppliedFilter.t) (id : string) :
  has_id C id ∨ ¬ has_id C id.
Proof.
  destruct (first_split (λ g, String.eqb (idFromFilter g) id) C)
    as [H|(l1 & g & l2 & -> & _ & Hg)].
  - right. by apply not_has_id.
  - left. exists g. split; [set_solver | by apply String.eqb_eq].
Qed.

(** An entry with the id splits the collection at the first such entry. *)
Lemma has_id_first (C : list AppliedFilter.t) (id : string) :
  has_id C id →
  ∃ l1 g l2, C = l1 ++ g :: l2 ∧ ¬ has_id l1 id ∧ idFromFilter g = id.
Proof.
  intros H.
  destruct (first_split (λ g, String.eqb (idFromFilter g) id) C)
    as [Hno|(l1 & g & l2 & -> & Hl1 & Hg)].
  - by apply not_has_id in Hno.
  - exists l1, g, l2. split_and!; [done | by apply not_has_id | by apply String.eqb_eq].
Qed.

Lemma alloc_fresh (elems : list AppliedFilter.t) (σ : Store) :
  (alloc elems σ).1 ∉ dom σ.
Proof. apply is_fresh. Qed.

Lemma with_appliedFilters_same (props : Props) :
  with_appliedFilters props (appliedFilters props) = props.
Proof. by destruct props. Qed.

Section handlers.
Context (props : Props) (σ : Store).
Hypothesis registered : onFiltersChange props = true.

Let C := appliedFilters_elems props σ.
Let r := fresh (dom σ).

Lemma handleAddFilter_found (newFilter : AppliedFilter.t) :
  has_id C (idFromFilter newFilter) →
  handleAddFilter props newFilter σ = (None, σ).
Proof.
  intros (g & Hg & Hid). unfold handleAddFilter. rewrite registered. simpl.
  destruct (JS.find _ _) eqn:Hf; [done|].
  apply find_None in Hf. rewrite Forall_forall in Hf.
  apply Hf, idFromFilter_eqb in Hg. done.
Qed.

Lemma handleAddFilter_new (newFilter : AppliedFilter.t) :
  ¬ has_id C (idFromFilter newFilter) →
  handleAddFilter props newFilter σ = (Some r, <[r := C ++ [newFilter]]> σ).
Proof.
  intros Hno%not_has_id. unfold handleAddFilter. rewrite registered. simpl.
  apply find_None in Hno. fold C. by rewrite Hno.
Qed.

Lemma handleRemoveFilter_first (filterId : string) l1 g l2 :
  C = l1 ++ g :: l2 → ¬ has_id l1 filterId → idFromFilter g = filterId →
  handleRemoveFilter props filterId σ = (Some r, <[r := l1 ++ l2]> σ).
Proof.
  intros HC Hl1%not_has_id Hg%String.eqb_eq.
  unfold handleRemoveFilter. rewrite registered. simpl. fold C. rewrite HC.
  rewrite (findIndex_first _ l1 l2 g Hl1 Hg).
  destruct (Z.leb_spec 0 (Z.of_nat (length l1))) as [_|?]; [|lia].
  by rewrite slice_around.
Qed.

Lemma handleRemoveFilter_absent (filterId : string) :
  ¬ has_id C filterId →
  handleRemoveFilter props filterId σ = (Some r, <[r := C]> σ).
Proof.
  intros Hno%not_has_id.
  unfold handleRemoveFilter. rewrite registered. simpl. fold C.
  by rewrite (findIndex_None _ C Hno).
Qed.
End handlers.

(** The collection a host holds once it was called back with a new array. *)
Lemma collection_called_with (props : Props) (σ : Store) (r : loc)
    (elems : list AppliedFilter.t) :
  collection (with_appliedFilters props (held props (Some r)), <[r := elems]> σ) = elems.
Proof. unfold collection, appliedFilters_elems. simpl. by rewrite lookup_insert_eq. Qed.

(** ** Adding and removing applied filters *)

(** C1.  For a host that registered [onFiltersChange] and holds the
    collection [C]: when some entry of [C] has the composite id of the new
    filter, [handleAddFilter] does not call back, the store is as before and
    the host keeps the array it had; when no entry has it, the handler
    calls back with a new array whose elements are those of [C], in their
    order, followed by the new filter. *)
Theorem add_first_wins_or_appends (props : Props) (σ : Store)
    (C : list AppliedFilter.t) (f : AppliedFilter.t) :
  onFiltersChange props = true →
  collection (props, σ) = C →
  (has_id C (idFromFilter f) →
     handleAddFilter props f σ = (None, σ)
     ∧ add (props, σ) f = (props, σ)
     ∧ collection (add (props, σ) f) = C)
  ∧ (¬ has_id C (idFromFilter f) →
     ∃ r, (r ∉ dom σ)
          ∧ handleAddFilter props f σ = (Some r, <[r := C ++ [f]]> σ)
          ∧ collection (add (props, σ) f) = C ++ [f]).
Proof.
  unfold collection. simpl. intros Hreg <-. split.
  - intros Hid. pose proof (handleAddFilter_found props σ Hreg f Hid) as H.
    unfold add. simpl. rewrite H. simpl. rewrite with_appliedFilters_same. done.
  - intros Hno. pose proof (handleAddFilter_new props σ Hreg f Hno) as H.
    exists (fresh (dom σ)). split_and!; [apply is_fresh | done |].
    unfold add. simpl. rewrite H. apply collection_called_with.
Qed.

(** C2.  For a host that registered [onFiltersChange] and holds the
    collection [C], [handleRemoveFilter] always calls back with a new array.
    When some entry of [C] has the id, its elements are those of [C] without
    the first entry that has the id, the others in their order, whatever
    follows that entry; when no entry has the id, its elements are those of
    [C]. *)
Theorem remove_first_match_or_copy (props : Props) (σ : Store)
    (C : list AppliedFilter.t) (filterId : string) :
  onFiltersChange props = true →
  collection (props, σ) = C →
  ∃ r C',
    (r ∉ dom σ)
    ∧ handleRemoveFilter props filterId σ = (Some r, <[r := C']> σ)
    ∧ collection (remove (props, σ) filterId) = C'
    ∧ (has_id C filterId →
         ∃ l1 g l2, C = l1 ++ g :: l2 ∧ ¬ has_id l1 filterId
                    ∧ idFromFilter g = filterId ∧ C' = l1 ++ l2)
    ∧ (¬ has_id C filterId → C' = C).
Proof.
  unfold collection at 1. simpl. intros Hreg <-. exists (fresh (dom σ)).
  destruct (has_id_dec (appliedFilters_elems props σ) filterId) as [Hid|Hno].
  - destruct (has_id_first _ _ Hid) as (l1 & g & l2 & HC & Hl1 & Hg).
    pose proof (handleRemoveFilter_first props σ Hreg filterId l1 g l2 HC Hl1 Hg) as H.
    exists (l1 ++ l2). split_and!; [apply is_fresh | done | | | done].
    + unfold remove. simpl. rewrite H. apply collection_called_with.
    + intros _. by exists l1, g, l2.
  - pose proof (handleRemoveFilter_absent props σ Hreg filterId Hno) as H.
    exists (appliedFilters_elems props σ).
    split_and!; [apply is_fresh | done | | done | done].
    unfold remove. simpl. rewrite H. apply collection_called_with.
Qed.

(** C3.  Removing, by its id, a filter that was just added under an id no
    entry had gives back the collection as it was before the addition,
    element for element. *)
Theorem remove_add_fresh_id (props : Props) (σ : Store)
    (C : list AppliedFilter.t) (f : AppliedFilter.t) :
  onFiltersChange props = true →
  collection (props, σ) = C →
  ¬ has_id C (idFromFilter f) →
  collection (remove (add (props, σ) f) (idFromFilter f)) = C.
Proof.
  unfold collection at 1. simpl. intros Hreg <- Hno. unfold add. simpl.
  rewrite (handleAddFilter_new props σ Hreg f Hno). simpl.
  set (r := fresh (dom σ)). set (C := appliedFilters_elems props σ) in *.
  set (props' := with_appliedFilters props (Some r)).
  set (σ' := <[r := C ++ [f]]> σ).
  assert (HC' : appliedFilters_elems props' σ' = C ++ f :: []).
  { unfold appliedFilters_elems, props', σ'. simpl. by rewrite lookup_insert_eq. }
  unfold remove. simpl.
  rewrite (handleRemoveFilter_first props' σ' Hreg (idFromFilter f) C f [] HC' Hno eq_refl).
  rewrite collection_called_with. apply app_nil_r.
Qed.

Import Examples.

Lemma add_first_wins_or_appends_witness :
  onFiltersChange (props 0%nat) = true
  ∧ collection (props 0%nat, σ0) = [small; before]
  ∧ add (props 0%nat, σ0) custom = (props 0%nat, σ0)
  ∧ collection (add (props 0%nat, σ0) large) = [small; before; large].
Proof.
  split_and!; [reflexivity | reflexivity | |].
  - destruct (add_first_wins_or_appends (props 0%nat) σ0 [small; before] custom
                eq_refl eq_refl) as [Hfound _].
    apply Hfound. exists small. split; [left | reflexivity].
  - destruct (add_first_wins_or_appends (props 0%nat) σ0 [small; before] large
                eq_refl eq_refl) as [_ Hnew].
    destruct Hnew as (r & _ & _ & Hc); [|exact Hc].
    apply not_has_id. repeat constructor.
Defined.

Lemma remove_first_match_or_copy_witness :
  onFiltersChange (props 0%nat) = true
  ∧ collection (props 0%nat, σ0) = [small; before]
  ∧ ∃ r C', (r ∉ dom σ0)
      ∧ handleRemoveFilter (props 0%nat) "before-2020-01-15" σ0 = (Some r, <[r := C']> σ0)
      ∧ collection (remove (props 0%nat, σ0) "before-2020-01-15") = C'.
Proof.
  split_and!; [reflexivity | reflexivity |].
  destruct (remove_first_match_or_copy (props 0%nat) σ0 [small; before]
              "before-2020-01-15" eq_refl eq_refl) as (r & C' & Hr & Hh & Hc & _).
  by exists r, C'.
Defined.

Lemma remove_add_fresh_id_witness :
  onFiltersChange (props 0%nat) = true
  ∧ collection (props 0%nat, σ0) = [small; before]
  ∧ ¬ has_id [small; before] (idFromFilter large)
  ∧ collection (remove (add (props 0%nat, σ0) large) (idFromFilter large)) = [small; before].
Proof.
  assert (Hno : ¬ has_id [small; before] (idFromFilter large)).
  { apply not_has_id. repeat constructor. }
  split_and!; [reflexivity | reflexivity | exact Hno |].
  exact (remove_add_fresh_id (props 0%nat) σ0 [small; before] large eq_refl eq_refl Hno).
Defined.

(** The handler answers with a new array and leaves the old one as it was. *)
Example add_large :
  handleAddFilter (props 0%nat) large σ0
  = (Some 1%nat, <[1%nat := [small; before; large]]> σ0).
Proof. reflexivity. Qed.

Example add_small_again :
  handleAddFilter (props 0%nat) custom σ0 = (None, σ0).
Proof. reflexivity. Qed.

Example remove_unknown_id :
  handleRemoveFilter (props 0%nat) "nonexistent-id" σ0
  = (Some 1%nat, <[1%nat := [small; before]]> σ0).
Proof. reflexivity. Qed.

Example unregistered_handlers_do_nothing :
  let silent := {| appliedFilters := Some 0%nat; filters := None;
                   onFiltersChange := false; intl := en |} in
  handleAddFilter silent large σ0 = (None, σ0)
  ∧ handleRemoveFilter silent "type-small" σ0 = (None, σ0).
Proof. split; reflexivity. Qed.

(** Only the first of several entries with the id goes. *)
Example remove_duplicates :
  collection (remove (props 0%nat, {[ 0%nat := [small; before; custom; small] ]}) "type-small")
  = [before; custom; small].
Proof. reflexivity. Qed.

(** C10.  The composite id does not determine the key and the value: the
    filters with key [a], value [b-c] and with key [a-b], value [c] differ in
    both and have one id.  Whenever the collection a host holds contains a
    filter with the id of the new one, [handleAddFilter] does not call back
    and the host keeps what it had, whatever the key and value of the two. *)
Theorem idFromFilter_collision_drops :
  (∃ f g, AppliedFilter.key f ≠ AppliedFilter.key g
          ∧ AppliedFilter.value f ≠ AppliedFilter.value g
          ∧ idFromFilter f = idFromFilter g)
  ∧ (∀ props σ C f g,
       onFiltersChange props = true →
       collection (props, σ) = C →
       f ∈ C →
       idFromFilter f = idFromFilter g →
       handleAddFilter props g σ = (None, σ)
       ∧ add (props, σ) g = (props, σ)
       ∧ collection (add (props, σ) g) = C).
Proof.
  split.
  - exists a_bc, ab_c. split_and!; done.
  - unfold collection at 1. simpl. intros props σ C f g Hreg <- Hin Hid.
    assert (Hhas : has_id (appliedFilters_elems props σ) (idFromFilter g)) by by exists f.
    pose proof (handleAddFilter_found props σ Hreg g Hhas) as H.
    unfold add. simpl. rewrite H. simpl. by rewrite with_appliedFilters_same.
Qed.

Lemma idFromFilter_collision_drops_witness :
  AppliedFilter.key a_bc ≠ AppliedFilter.key ab_c
  ∧ AppliedFilter.value a_bc ≠ AppliedFilter.value ab_c
  ∧ idFromFilter a_bc = idFromFilter ab_c
  ∧ add (props 0%nat, {[ 0%nat := [small; a_bc] ]}) ab_c
    = (props 0%nat, {[ 0%nat := [small; a_bc] ]}).
Proof.
  split_and!; [done | done | reflexivity |].
  destruct idFromFilter_collision_drops as [_ H].
  refine (proj1 (proj2 (H (props 0%nat) {[ 0%nat := [small; a_bc] ]} [small; a_bc] a_bc ab_c
            eq_refl eq_refl _ eq_refl))).
  right. left.
Defined.

(** ** Looking up the definition of a key *)

Lemma truthy_nonempty (o : option string) : JS.truthy o = true ↔ nonempty o.
Proof.
  unfold nonempty. destruct o as [s|]; simpl.
  - rewrite negb_true_iff, String.eqb_neq. split; [by exists s | by intros (? & [= <-] & ?)].
  - split; [done | by intros (? & ? & _)].
Qed.

Lemma truthy_or (a b : option string) :
  JS.truthy (JS.or a b) = JS.truthy a || JS.truthy b.
Proof. unfold JS.or. by destruct (JS.truthy a) eqn:Ha; [rewrite Ha|]. Qed.

Lemma strict_eq_true (a : string) (b : option string) :
  JS.strict_eq a b = true ↔ b = Some a.
Proof.
  destruct b as [s|]; simpl; [|done].
  rewrite String.eqb_eq. split; [by intros -> | by intros [= ->]].
Qed.

(** The callback of the lookup decides [governs]. *)
Lemma matchesKey_governs (key : string) (filter : Filter.t) :
  matchesKey key filter = true ↔ governs key filter.
Proof.
  unfold matchesKey, governs. rewrite truthy_or.
  destruct (JS.truthy (Filter.minKey filter) || JS.truthy (Filter.maxKey filter)) eqn:Ht.
  - rewrite !orb_true_iff, !strict_eq_true, String.eqb_eq.
    apply orb_true_iff in Ht. rewrite !truthy_nonempty in Ht. tauto.
  - rewrite String.eqb_eq. apply orb_false_iff in Ht as [Hmin Hmax].
    split; [tauto|]. intros [?|[[H|H] _]]; [done| |];
      apply truthy_nonempty in H; congruence.
Qed.

Lemma matchesKey_not_governs (key : string) (filter : Filter.t) :
  matchesKey key filter = false ↔ ¬ governs key filter.
Proof. rewrite <- matchesKey_governs. by destruct (matchesKey key filter). Qed.

Lemma findDefinition_None (catalog : list Filter.t) (key : string) :
  findDefinition catalog key = None ↔ ∀ g, g ∈ catalog → ¬ governs key g.
Proof.
  unfold findDefinition. rewrite find_None, Forall_forall.
  by setoid_rewrite matchesKey_not_governs.
Qed.

(** C5, as the specification words it, fails on the code: the definition
    [updated] has a [minKey] that is present, the empty string, and no
    [maxKey]; searched for the empty key it matches by the words of the
    specification, while the callback tests [minKey || maxKey], finds it
    falsy and compares the [key] only. *)
Lemma findDefinition_empty_minKey :
  spec_findDefinition [updated] "" = Some updated
  ∧ findDefinition [updated] "" = None.
Proof. split; reflexivity. Qed.

(** C5, amended.  [findDefinition] returns the first definition in catalog
    order that matches the key, where a definition with a non-empty [minKey]
    or [maxKey] matches when its [key], [minKey] or [maxKey] is the key and
    a definition whose [minKey] and [maxKey] are each absent or empty
    matches only when its [key] is the key; when no definition matches, the
    result is [None], an ordinary value. *)
Theorem findDefinition_first_match (catalog : list Filter.t) (key : string) :
  (∀ f, (nonempty (Filter.minKey f) ∨ nonempty (Filter.maxKey f)) →
        (matchesKey key f = true ↔
         Filter.key f = key ∨ Filter.minKey f = Some key ∨ Filter.maxKey f = Some key))
  ∧ (∀ f, ¬ (nonempty (Filter.minKey f) ∨ nonempty (Filter.maxKey f)) →
          (matchesKey key f = true ↔ Filter.key f = key))
  ∧ match findDefinition catalog key with
    | Some f => ∃ l1 l2, catalog = l1 ++ f :: l2
                         ∧ (∀ g, g ∈ l1 → matchesKey key g = false)
                         ∧ matchesKey key f = true
    | None => ∀ g, g ∈ catalog → matchesKey key g = false
    end.
Proof.
  split_and!.
  - intros f Hne. rewrite matchesKey_governs. unfold governs. tauto.
  - intros f Hne. rewrite matchesKey_governs. unfold governs. tauto.
  - destruct (findDefinition catalog key) as [f|] eqn:Hf.
    + apply find_Some in Hf as (l1 & l2 & -> & Hl1 & Hm). exists l1, l2.
      split_and!; [done | | done].
      by apply Forall_forall.
    + by apply Forall_forall, find_None.
Qed.

Lemma findDefinition_first_match_witness :
  (nonempty (Filter.minKey created) ∨ nonempty (Filter.maxKey created))
  ∧ matchesKey "before" created = true
  ∧ ∃ l1 l2, [sizes; created] = l1 ++ created :: l2
             ∧ (∀ g, g ∈ l1 → matchesKey "before" g = false).
Proof.
  destruct (findDefinition_first_match [sizes; created] "before") as (Hsome & _ & Hfirst).
  assert (Hne : nonempty (Filter.minKey created) ∨ nonempty (Filter.maxKey created)).
  { left. by exists "after". }
  split_and!; [exact Hne | |].
  - apply (Hsome created Hne). right. right. reflexivity.
  - simpl in Hfirst. destruct Hfirst as (l1 & l2 & Heq & Hl1 & _). by exists l1, l2.
Defined.

(** ** Resolving the label *)

Lemma append_nil_r (s : string) : s +:+ "" = s.
Proof.
  induction s as [|a s IH]; [reflexivity|].
  change (String a (s +:+ "") = String a s). by rewrite IH.
Qed.

Lemma join_three (a c : string) (b : option string) :
  JS.join " " [Some a; b; Some c] = a +:+ " " +:+ default "" b +:+ " " +:+ c.
Proof.
  unfold JS.join, JS.join_rest, JS.toJoinString. simpl.
  by rewrite append_nil_r.
Qed.

Lemma replace_dashes_get (s : string) (n : nat) :
  String.get n (JS.replace_dashes s)
  = (λ c, if Ascii.eqb c "-" then "/"%char else c) <$> String.get n s.
Proof.
  revert n. induction s as [|a s IH]; intros [|n]; simpl; auto.
Qed.

Lemma replace_dashes_length (s : string) :
  String.length (JS.replace_dashes s) = String.length s.
Proof. induction s as [|a s IH]; simpl; [done | by rewrite IH]. Qed.

Section resolve.
Context (host : DateHost) (props : Props) (appliedFilter : AppliedFilter.t).

Let key := AppliedFilter.key appliedFilter.
Let value := AppliedFilter.value appliedFilter.
Let catalog := default [] (filters props).

Lemma getFilterLabel_fallthrough :
  JS.truthy (AppliedFilter.label appliedFilter) = false →
  getFilterLabel host props appliedFilter =
  match findDefinition catalog key with
  | None => mret value
  | Some filter =>
      filterLabelByType ← findFilterLabelByType host props filter appliedFilter;
      mret (JS.join " " [Some (Filter.label filter); Filter.operatorText filter;
                         Some filterLabelByType])
  end.
Proof.
  intros Hl. unfold getFilterLabel, findDefinition. fold key value catalog.
  destruct (AppliedFilter.label appliedFilter) as [l|]; [|done].
  by rewrite Hl.
Qed.

Lemma findFilterLabelByType_DateSelector (filter : Filter.t) :
  Filter.type filter = DateSelector →
  findFilterLabelByType host props filter appliedFilter =
  if String.eqb (Filter.key filter) key then
    let filterLabelKey :=
      "Polaris.ResourceList.DateSelector.FilterLabelForValue." +:+ value in
    known ← translationKeyExists (intl props) filterLabelKey;
    if known : bool then translate (intl props) filterLabelKey None
    else mret value
  else if JS.strict_eq key (Filter.maxKey filter) then
    date ← formatDateForLabelDisplay host value;
    translate (intl props)
      "Polaris.ResourceList.DateSelector.FilterLabelForValue.on_or_before"
      (Some [("date", date)])
  else if JS.strict_eq key (Filter.minKey filter) then
    date ← formatDateForLabelDisplay host value;
    translate (intl props)
      "Polaris.ResourceList.DateSelector.FilterLabelForValue.on_or_after"
      (Some [("date", date)])
  else mret value.
Proof. intros Ht. unfold findFilterLabelByType. by rewrite Ht. Qed.
End resolve.

Example label_select_string :
  getFilterLabel dates (props 0%nat) small = ("Size is small", []).
Proof. reflexivity. Qed.

Example label_select_object :
  getFilterLabel dates (props 0%nat) large = ("Size is Large", []).
Proof. reflexivity. Qed.

Example label_on_or_before :
  getFilterLabel dates (props 0%nat) before
  = ("Created  on or before 1/15/2020",
     [CallNewDate "2020-01-15"; CallNewDate "2020/01/15";
      CallToLocaleDateString (Some 1579064400000);
      CallTranslate "Polaris.ResourceList.DateSelector.FilterLabelForValue.on_or_before"
        (Some [("date", "1/15/2020")])]).
Proof. reflexivity. Qed.

Example label_past_week :
  (getFilterLabel dates (props 0%nat) (AppliedFilter.Build "created" "past_week" None)).1
  = "Created  in the last week".
Proof. reflexivity. Qed.

Example label_unparseable_date :
  (getFilterLabel dates (props 0%nat) (AppliedFilter.Build "after" "not-a-date" None)).1
  = "Created  on or after not-a-date".
Proof. reflexivity. Qed.

Example label_empty_override :
  getFilterLabel dates (props 0%nat) (AppliedFilter.Build "type" "small" (Some ""))
  = ("Size is small", []).
Proof. reflexivity. Qed.

Lemma bind_value {A B : Type} (m : Traced A) (k : A → Traced B) :
  (m ≫= k).1 = (k m.1).1.
Proof.
  destruct m as [a t1]. unfold mbind, Traced_bind. simpl. by destruct (k a).
Qed.

Lemma bind_calls {A B : Type} (m : Traced A) (k : A → Traced B) :
  (m ≫= k).2 = m.2 ++ (k m.1).2.
Proof.
  destruct m as [a t1]. unfold mbind, Traced_bind. simpl. by destruct (k a).
Qed.

Lemma not_nonempty_truthy (o : option string) : ¬ nonempty o → JS.truthy o = false.
Proof. rewrite <- truthy_nonempty. by destruct (JS.truthy o). Qed.

(** C4.  On a definition of type [DateSelector] the label by type is, in
    this order of precedence: when the definition's [key] is the applied
    filter's key (whatever [minKey] and [maxKey] are), the translation of
    the key built from the value if that translation key exists and the raw
    value if not; otherwise, when the applied filter's key is the [maxKey],
    the "on or before" translation with [date] the value formatted for
    display; otherwise, when it is the [minKey], the "on or after"
    translation with the same formatting; otherwise the raw value. *)
Theorem DateSelector_label_priority (host : DateHost) (props : Props)
    (definition : Filter.t) (appliedFilter : AppliedFilter.t) :
  Filter.type definition = DateSelector →
  let key := AppliedFilter.key appliedFilter in
  let value := AppliedFilter.value appliedFilter in
  let date := (formatDateForLabelDisplay host value).1 in
  let typeSpecificLabel := (findFilterLabelByType host props definition appliedFilter).1 in
  (Filter.key definition = key →
     typeSpecificLabel =
     let filterLabelKey := "Polaris.ResourceList.DateSelector.FilterLabelForValue." +:+ value in
     if intl_translationKeyExists (intl props) filterLabelKey
     then intl_translate (intl props) filterLabelKey None
     else value)
  ∧ (Filter.key definition ≠ key → Filter.maxKey definition = Some key →
     typeSpecificLabel =
     intl_translate (intl props)
       "Polaris.ResourceList.DateSelector.FilterLabelForValue.on_or_before"
       (Some [("date", date)]))
  ∧ (Filter.key definition ≠ key → Filter.maxKey definition ≠ Some key →
     Filter.minKey definition = Some key →
     typeSpecificLabel =
     intl_translate (intl props)
       "Polaris.ResourceList.DateSelector.FilterLabelForValue.on_or_after"
       (Some [("date", date)]))
  ∧ (Filter.key definition ≠ key → Filter.maxKey definition ≠ Some key →
     Filter.minKey definition ≠ Some key →
     typeSpecificLabel = value).
Proof.
  intros Ht key value date typeSpecificLabel. subst typeSpecificLabel.
  rewrite (findFilterLabelByType_DateSelector host props appliedFilter definition Ht).
  fold key value.
  split_and!.
  - intros ->%String.eqb_eq. rewrite bind_value. simpl.
    by destruct (intl_translationKeyExists _ _).
  - intros ->%String.eqb_neq ->%strict_eq_true. by rewrite bind_value.
  - intros ->%String.eqb_neq Hmax ->%strict_eq_true.
    destruct (JS.strict_eq key (Filter.maxKey definition)) eqn:E.
    + by apply strict_eq_true in E.
    + by rewrite bind_value.
  - intros ->%String.eqb_neq Hmax Hmin.
    destruct (JS.strict_eq key (Filter.maxKey definition)) eqn:E1;
      [by apply strict_eq_true in E1|].
    destruct (JS.strict_eq key (Filter.minKey definition)) eqn:E2;
      [by apply strict_eq_true in E2|].
    done.
Qed.

Lemma DateSelector_label_priority_witness :
  Filter.type created = DateSelector
  ∧ Filter.key created ≠ AppliedFilter.key before
  ∧ Filter.maxKey created = Some (AppliedFilter.key before)
  ∧ (findFilterLabelByType dates (props 0%nat) created before).1 = "on or before 1/15/2020".
Proof.
  split_and!; [reflexivity | done | reflexivity |].
  destruct (DateSelector_label_priority dates (props 0%nat) created before eq_refl)
    as (_ & Hmax & _).
  rewrite Hmax; [reflexivity | done | reflexivity].
Defined.

(** C6.  An applied filter whose [label] is there and not empty is
    displayed with that label as it is, whatever the catalog, the
    translations, the key and the value; no call into the host is made. *)
Theorem label_override_verbatim (host : DateHost) (props : Props)
    (appliedFilter : AppliedFilter.t) (label : string) :
  AppliedFilter.label appliedFilter = Some label →
  label ≠ "" →
  getFilterLabel host props appliedFilter = (label, []).
Proof.
  intros Hl Hne. unfold getFilterLabel. rewrite Hl. simpl.
  apply String.eqb_neq in Hne. by rewrite Hne.
Qed.

Lemma label_override_verbatim_witness :
  AppliedFilter.label custom = Some "Custom"
  ∧ "Custom" ≠ ""
  ∧ getFilterLabel dates (props 0%nat) custom = ("Custom", []).
Proof.
  split_and!; [reflexivity | done |].
  by apply (label_override_verbatim dates (props 0%nat) custom "Custom").
Defined.

(** C7.  For an applied filter without a label override whose key has a
    definition, the label is the definition's [label], its [operatorText]
    and the label by type, joined by single spaces in these positions; an
    absent [operatorText] stands as the empty string, which leaves two
    spaces between the definition's label and the label by type. *)
Theorem label_joins_three_fragments (host : DateHost) (props : Props)
    (appliedFilter : AppliedFilter.t) (definition : Filter.t) :
  ¬ nonempty (AppliedFilter.label appliedFilter) →
  findDefinition (default [] (filters props)) (AppliedFilter.key appliedFilter)
    = Some definition →
  let typeSpecificLabel := (findFilterLabelByType host props definition appliedFilter).1 in
  (getFilterLabel host props appliedFilter).1
    = Filter.label definition +:+ " " +:+ default "" (Filter.operatorText definition)
      +:+ " " +:+ typeSpecificLabel
  ∧ (Filter.operatorText definition = None →
     (getFilterLabel host props appliedFilter).1
       = Filter.label definition +:+ "  " +:+ typeSpecificLabel).
Proof.
  intros Hl%not_nonempty_truthy Hd typeSpecificLabel.
  rewrite (getFilterLabel_fallthrough host props appliedFilter Hl), Hd, bind_value.
  unfold mret, Traced_ret. cbn [fst]. rewrite join_three. split; [done|]. by intros ->.
Qed.

Lemma label_joins_three_fragments_witness :
  ¬ nonempty (AppliedFilter.label before)
  ∧ findDefinition (default [] (filters (props 0%nat))) (AppliedFilter.key before) = Some created
  ∧ Filter.operatorText created = None
  ∧ (getFilterLabel dates (props 0%nat) before).1 = "Created  on or before 1/15/2020".
Proof.
  assert (Hl : ¬ nonempty (AppliedFilter.label before)) by (by intros (s & ? & _)).
  split_and!; [exact Hl | reflexivity | reflexivity |].
  destruct (label_joins_three_fragments dates (props 0%nat) before created Hl eq_refl)
    as [_ Hdouble].
  by rewrite Hdouble.
Defined.

(** C8.  For an applied filter without a label override whose key no
    definition of the catalog governs, the label is the raw value; the
    function returns it as an ordinary result and makes no call into the
    host. *)
Theorem unmatched_key_falls_back (host : DateHost) (props : Props)
    (appliedFilter : AppliedFilter.t) :
  ¬ nonempty (AppliedFilter.label appliedFilter) →
  (∀ definition, definition ∈ default [] (filters props) →
                 ¬ governs (AppliedFilter.key appliedFilter) definition) →
  getFilterLabel host props appliedFilter = (AppliedFilter.value appliedFilter, []).
Proof.
  intros Hl%not_nonempty_truthy Hno%findDefinition_None.
  by rewrite (getFilterLabel_fallthrough host props appliedFilter Hl), Hno.
Qed.

Lemma unmatched_key_falls_back_witness :
  ¬ nonempty (AppliedFilter.label a_bc)
  ∧ (∀ definition, definition ∈ default [] (filters (props 0%nat)) →
                   ¬ governs (AppliedFilter.key a_bc) definition)
  ∧ getFilterLabel dates (props 0%nat) a_bc = ("b-c", []).
Proof.
  assert (Hl : ¬ nonempty (AppliedFilter.label a_bc)) by (by intros (s & ? & _)).
  assert (Hno : ∀ definition, definition ∈ default [] (filters (props 0%nat)) →
                              ¬ governs (AppliedFilter.key a_bc) definition).
  { apply findDefinition_None. reflexivity. }
  split_and!; [exact Hl | exact Hno |].
  exact (unmatched_key_falls_back dates (props 0%nat) a_bc Hl Hno).
Defined.

(** C9.  [formatDateForLabelDisplay] always returns: when the raw string
    is not a valid date it returns the raw string itself after the one
    parse, and neither parses again nor renders; when it is a valid date it
    parses the string with every [-] replaced by [/], character by
    character, and returns the locale rendering of that second date. *)
Theorem formatDate_passthrough_or_reformat (host : DateHost) (raw : string) :
  (Date_time host raw = None →
     formatDateForLabelDisplay host raw = (raw, [CallNewDate raw]))
  ∧ (∀ time, Date_time host raw = Some time →
       let reparsed := Date_time host (JS.replace_dashes raw) in
       formatDateForLabelDisplay host raw
       = (Date_toLocaleDateString host reparsed,
          [CallNewDate raw; CallNewDate (JS.replace_dashes raw);
           CallToLocaleDateString reparsed]))
  ∧ String.length (JS.replace_dashes raw) = String.length raw
  ∧ (∀ n, String.get n (JS.replace_dashes raw)
          = (λ c, if Ascii.eqb c "-" then "/"%char else c) <$> String.get n raw).
Proof.
  split_and!.
  - intros H. unfold formatDateForLabelDisplay, newDate. simpl.
    unfold mbind, Traced_bind. by rewrite H.
  - intros time H reparsed. unfold formatDateForLabelDisplay, newDate. simpl.
    unfold mbind, Traced_bind. by rewrite H.
  - apply replace_dashes_length.
  - apply replace_dashes_get.
Qed.

Lemma formatDate_passthrough_or_reformat_witness :
  Date_time dates "not-a-date" = None
  ∧ formatDateForLabelDisplay dates "not-a-date" = ("not-a-date", [CallNewDate "not-a-date"])
  ∧ Date_time dates "2020-01-15" = Some 1579046400000
  ∧ (formatDateForLabelDisplay dates "2020-01-15").1 = "1/15/2020".
Proof.
  split_and!; [reflexivity | | reflexivity |].
  - by apply (formatDate_passthrough_or_reformat dates "not-a-date").
  - destruct (formatDate_passthrough_or_reformat dates "2020-01-15") as (_ & H & _).
    by rewrite (H 1579046400000 eq_refl).
Defined.

(** ** What the handlers keep *)

Lemma has_id_ids (C : list AppliedFilter.t) (id : string) :
  has_id C id ↔ id ∈ ids C.
Proof.
  unfold has_id, ids. rewrite list_elem_of_fmap. split.
  - intros (g & Hg & <-). by exists g.
  - intros (g & -> & Hg). by exists g.
Qed.

Lemma not_has_id_cons (g : AppliedFilter.t) (C : list AppliedFilter.t) (id : string) :
  ¬ has_id (g :: C) id ↔ idFromFilter g ≠ id ∧ ¬ has_id C id.
Proof.
  unfold has_id. split.
  - intros H. split.
    + intros Hg. apply H. exists g. split; [left | done].
    + intros (x & Hx & Hid). apply H. exists x. split; [by right | done].
  - intros [Hg HC] (x & Hx & Hid). apply elem_of_cons in Hx as [->|Hx]; [done|].
    apply HC. by exists x.
Qed.

Lemma without_first_split (l1 l2 : list AppliedFilter.t) (g : AppliedFilter.t)
    (id : string) :
  ¬ has_id l1 id → idFromFilter g = id →
  without_first id (l1 ++ g :: l2) = l1 ++ l2.
Proof.
  intros Hl1 Hg. induction l1 as [|x l1 IH]; simpl.
  - apply String.eqb_eq in Hg. by rewrite Hg.
  - apply not_has_id_cons in Hl1 as [Hx Hl1]. apply String.eqb_neq in Hx.
    rewrite Hx. f_equal. by apply IH.
Qed.

Lemma without_first_absent (C : list AppliedFilter.t) (id : string) :
  ¬ has_id C id → without_first id C = C.
Proof.
  induction C as [|x C IH]; simpl; [done|].
  intros [Hx HC]%not_has_id_cons. apply String.eqb_neq in Hx.
  rewrite Hx. f_equal. by apply IH.
Qed.

Lemma without_first_sublist (C : list AppliedFilter.t) (id : string) :
  without_first id C `sublist_of` C.
Proof.
  induction C as [|x C IH]; simpl; [done|].
  destruct (String.eqb _ _); [by apply sublist_cons | by apply sublist_skip].
Qed.

Lemma add_unregistered (s : HostState) (f : AppliedFilter.t) :
  onFiltersChange s.1 = false → add s f = s.
Proof.
  destruct s as [props σ]. simpl. intros H. unfold add, handleAddFilter. simpl.
  rewrite H. simpl. by rewrite with_appliedFilters_same.
Qed.

Lemma remove_unregistered (s : HostState) (filterId : string) :
  onFiltersChange s.1 = false → remove s filterId = s.
Proof.
  destruct s as [props σ]. simpl. intros H. unfold remove, handleRemoveFilter. simpl.
  rewrite H. simpl. by rewrite with_appliedFilters_same.
Qed.

Lemma add_found (s : HostState) (f : AppliedFilter.t) :
  onFiltersChange s.1 = true → has_id (collection s) (idFromFilter f) → add s f = s.
Proof.
  destruct s as [props σ]. simpl. intros Hreg Hid. unfold add. simpl.
  rewrite (handleAddFilter_found props σ Hreg f Hid). simpl.
  by rewrite with_appliedFilters_same.
Qed.

Lemma add_new (s : HostState) (f : AppliedFilter.t) :
  onFiltersChange s.1 = true → ¬ has_id (collection s) (idFromFilter f) →
  add s f = (with_appliedFilters s.1 (Some (fresh (dom s.2))),
             <[fresh (dom s.2) := collection s ++ [f]]> s.2).
Proof.
  destruct s as [props σ]. simpl. intros Hreg Hno. unfold add. simpl.
  by rewrite (handleAddFilter_new props σ Hreg f Hno).
Qed.

Lemma remove_registered (s : HostState) (filterId : string) :
  onFiltersChange s.1 = true →
  remove s filterId = (with_appliedFilters s.1 (Some (fresh (dom s.2))),
                       <[fresh (dom s.2) := without_first filterId (collection s)]> s.2).
Proof.
  destruct s as [props σ]. simpl. intros Hreg. unfold remove. simpl.
  destruct (has_id_dec (collection (props, σ)) filterId) as [Hid|Hno].
  - destruct (has_id_first _ _ Hid) as (l1 & g & l2 & HC & Hl1 & Hg).
    rewrite (handleRemoveFilter_first props σ Hreg filterId l1 g l2 HC Hl1 Hg).
    simpl. by rewrite HC, without_first_split.
  - rewrite (handleRemoveFilter_absent props σ Hreg filterId Hno).
    simpl. by rewrite without_first_absent.
Qed.

Lemma collection_with_new (props : Props) (σ : Store) (r : loc)
    (elems : list AppliedFilter.t) :
  collection (with_appliedFilters props (Some r), <[r := elems]> σ) = elems.
Proof. apply collection_called_with. Qed.

Lemma collection_add (s : HostState) (f : AppliedFilter.t) :
  collection (add s f) = collection s
  ∨ (¬ has_id (collection s) (idFromFilter f)
     ∧ collection (add s f) = collection s ++ [f]).
Proof.
  destruct (onFiltersChange s.1) eqn:Hreg.
  - destruct (has_id_dec (collection s) (idFromFilter f)) as [Hid|Hno].
    + left. by rewrite add_found.
    + right. split; [done|]. rewrite add_new by done. apply collection_with_new.
  - left. by rewrite add_unregistered.
Qed.

Lemma collection_remove (s : HostState) (filterId : string) :
  collection (remove s filterId)
  = if onFiltersChange s.1 then without_first filterId (collection s) else collection s.
Proof.
  destruct (onFiltersChange s.1) eqn:Hreg.
  - rewrite remove_registered by done. apply collection_with_new.
  - by rewrite remove_unregistered.
Qed.

Lemma registered_add (s : HostState) (f : AppliedFilter.t) :
  onFiltersChange (add s f).1 = onFiltersChange s.1.
Proof. unfold add. by destruct (handleAddFilter _ _ _). Qed.

Lemma registered_remove (s : HostState) (filterId : string) :
  onFiltersChange (remove s filterId).1 = onFiltersChange s.1.
Proof. unfold remove. by destruct (handleRemoveFilter _ _ _). Qed.

(** X1.  Neither handler changes an array that exists: every array of the
    store before the call is in the store after it with its elements, and
    an array the handler calls back with is one the store did not have. *)
Theorem handlers_keep_existing_arrays (props : Props) (σ : Store) :
  (∀ newFilter,
     σ ⊆ (handleAddFilter props newFilter σ).2
     ∧ ∀ r, (handleAddFilter props newFilter σ).1 = Some r → r ∉ dom σ)
  ∧ (∀ filterId,
       σ ⊆ (handleRemoveFilter props filterId σ).2
       ∧ ∀ r, (handleRemoveFilter props filterId σ).1 = Some r → r ∉ dom σ).
Proof.
  assert (Hins : ∀ elems : list AppliedFilter.t, σ ⊆ <[fresh (dom σ) := elems]> σ).
  { intros elems. apply insert_subseteq, not_elem_of_dom, is_fresh. }
  split.
  - intros f. unfold handleAddFilter.
    destruct (negb (onFiltersChange props)); simpl; [done|].
    destruct (JS.find _ _); simpl; [done|].
    split; [apply Hins | intros r [= <-]; apply is_fresh].
  - intros id. unfold handleRemoveFilter.
    destruct (negb (onFiltersChange props)); simpl; [done|].
    destruct (0 <=? _); simpl; (split; [apply Hins | intros r [= <-]; apply is_fresh]).
Qed.

Lemma handlers_keep_existing_arrays_witness :
  σ0 ⊆ (handleAddFilter (props 0%nat) large σ0).2
  ∧ (handleRemoveFilter (props 0%nat) "type-small" σ0).2 !! 0%nat = Some [small; before].
Proof.
  destruct (handlers_keep_existing_arrays (props 0%nat) σ0) as [Hadd Hremove].
  split; [apply Hadd|].
  destruct (Hremove "type-small") as [Hsub _].
  by apply (lookup_weaken σ0).
Defined.

(** X2.  Asking twice to add the same filter is asking once: the second
    request leaves the host's props and the store as the first left them. *)
Theorem add_idempotent (s : HostState) (f : AppliedFilter.t) :
  add (add s f) f = add s f.
Proof.
  destruct (onFiltersChange s.1) eqn:Hreg.
  - destruct (has_id_dec (collection s) (idFromFilter f)) as [Hid|Hno].
    + by rewrite !(add_found s f).
    + apply add_found; [by rewrite registered_add|].
      rewrite add_new by done. rewrite collection_with_new.
      exists f. split; [set_solver | done].
  - by rewrite !(add_unregistered s f).
Qed.

(** X3.  After a request to add [f], looking the collection up by the id of
    [f] finds the entry that had the id before if there was one, and [f]
    itself if there was none. *)
Theorem add_then_find_by_id (s : HostState) (f : AppliedFilter.t) :
  onFiltersChange s.1 = true →
  let same_id g := String.eqb (idFromFilter g) (idFromFilter f) in
  JS.find same_id (collection (add s f))
  = Some (default f (JS.find same_id (collection s))).
Proof.
  intros Hreg same_id.
  destruct (has_id_dec (collection s) (idFromFilter f)) as [Hid|Hno].
  - rewrite add_found by done.
    destruct (JS.find same_id (collection s)) eqn:Hf; [done|].
    apply find_None in Hf. by apply not_has_id in Hf.
  - rewrite add_new by done. rewrite collection_with_new.
    apply not_has_id in Hno. pose proof Hno as Hnone. apply find_None in Hnone.
    fold same_id in Hnone. rewrite Hnone. simpl.
    apply find_Some. exists (collection s), []. split_and!; [done | done |].
    apply String.eqb_refl.
Qed.

Lemma add_then_find_by_id_witness :
  onFiltersChange (props 0%nat, σ0).1 = true
  ∧ JS.find (λ g, String.eqb (idFromFilter g) (idFromFilter custom))
            (collection (add (props 0%nat, σ0) custom)) = Some small
  ∧ JS.find (λ g, String.eqb (idFromFilter g) (idFromFilter large))
            (collection (add (props 0%nat, σ0) large)) = Some large.
Proof.
  split_and!; [reflexivity | |].
  - by rewrite (add_then_find_by_id (props 0%nat, σ0) custom eq_refl).
  - by rewrite (add_then_find_by_id (props 0%nat, σ0) large eq_refl).
Defined.

(** ** Collections with one entry per id *)

Lemma ids_cons (g : AppliedFilter.t) (C : list AppliedFilter.t) :
  ids (g :: C) = idFromFilter g :: ids C.
Proof. reflexivity. Qed.

Lemma ids_app (C1 C2 : list AppliedFilter.t) : ids (C1 ++ C2) = ids C1 ++ ids C2.
Proof. apply fmap_app. Qed.

Lemma not_has_id_app (C1 C2 : list AppliedFilter.t) (id : string) :
  ¬ has_id (C1 ++ C2) id ↔ ¬ has_id C1 id ∧ ¬ has_id C2 id.
Proof. rewrite !has_id_ids, ids_app. apply not_elem_of_app. Qed.

Lemma without_first_distinct (C : list AppliedFilter.t) (id : string) :
  NoDup (ids C) → ¬ has_id (without_first id C) id.
Proof.
  induction C as [|g C IH].
  - intros _ (x & Hx & _). by apply elem_of_nil in Hx.
  - rewrite ids_cons, NoDup_cons. intros [Hg HC]. simpl.
    destruct (String.eqb_spec (idFromFilter g) id) as [<-|Hne].
    + by rewrite has_id_ids.
    + apply not_has_id_cons. split; [done | by apply IH].
Qed.

Lemma without_first_others (C : list AppliedFilter.t) (id : string) :
  filter (λ g, idFromFilter g ≠ id) (without_first id C)
  = filter (λ g, idFromFilter g ≠ id) C.
Proof.
  induction C as [|g C IH]; simpl; [done|].
  destruct (String.eqb_spec (idFromFilter g) id) as [Heq|Hne].
  - rewrite filter_cons_False; [done | by intros ?].
  - by rewrite !filter_cons_True, IH.
Qed.

Lemma without_first_length (C : list AppliedFilter.t) (id : string) :
  has_id C id → S (length (without_first id C)) = length C.
Proof.
  intros (l1 & g & l2 & -> & Hl1 & Hg)%has_id_first.
  rewrite without_first_split by done. rewrite !length_app. simpl. lia.
Qed.

(** A request to add keeps a collection with pairwise different ids that
    way, and so does a request to remove. *)
Lemma add_keeps_ids_distinct (s : HostState) (f : AppliedFilter.t) :
  NoDup (ids (collection s)) → NoDup (ids (collection (add s f))).
Proof.
  intros Hnd. destruct (collection_add s f) as [->|[Hno ->]]; [done|].
  rewrite ids_app. apply NoDup_app. split_and!; [done | | apply NoDup_singleton].
  intros id Hid ->%list_elem_of_singleton. by apply Hno, has_id_ids.
Qed.

Lemma remove_keeps_ids_distinct (s : HostState) (filterId : string) :
  NoDup (ids (collection s)) → NoDup (ids (collection (remove s filterId))).
Proof.
  intros Hnd. rewrite collection_remove. destruct (onFiltersChange s.1); [|done].
  apply (sublist_NoDup _ (ids (collection s))); [done|].
  apply fmap_sublist, without_first_sublist.
Qed.

(** X4.  When the ids of the collection are pairwise different, a request
    to remove an id leaves no entry with that id. *)
Theorem remove_clears_distinct_id (s : HostState) (filterId : string) :
  onFiltersChange s.1 = true →
  NoDup (ids (collection s)) →
  ¬ has_id (collection (remove s filterId)) filterId.
Proof.
  intros Hreg Hnd. rewrite collection_remove, Hreg. by apply without_first_distinct.
Qed.

Lemma remove_clears_distinct_id_witness :
  onFiltersChange (props 0%nat, σ0).1 = true
  ∧ NoDup (ids (collection (props 0%nat, σ0)))
  ∧ ¬ has_id (collection (remove (props 0%nat, σ0) "type-small")) "type-small".
Proof.
  assert (H : NoDup (ids (collection (props 0%nat, σ0)))).
  { compute_done. }
  split_and!; [reflexivity | exact H |].
  exact (remove_clears_distinct_id (props 0%nat, σ0) "type-small" eq_refl H).
Defined.

(** X5.  A request to remove an id leaves the entries with any other id as
    they were and in their order, and takes exactly one entry away when
    some entry has the id. *)
Theorem remove_keeps_other_ids (s : HostState) (filterId : string) :
  filter (λ g, idFromFilter g ≠ filterId) (collection (remove s filterId))
  = filter (λ g, idFromFilter g ≠ filterId) (collection s)
  ∧ (onFiltersChange s.1 = true → has_id (collection s) filterId →
     S (length (collection (remove s filterId))) = length (collection s)).
Proof.
  rewrite collection_remove. destruct (onFiltersChange s.1); [|done].
  split; [apply without_first_others | intros _; apply without_first_length].
Qed.

Lemma remove_keeps_other_ids_witness :
  onFiltersChange (props 0%nat, σ0).1 = true
  ∧ has_id (collection (props 0%nat, σ0)) "type-small"
  ∧ S (length (collection (remove (props 0%nat, σ0) "type-small"))) = 2%nat.
Proof.
  assert (H : has_id (collection (props 0%nat, σ0)) "type-small").
  { exists small. split; [left | reflexivity]. }
  split_and!; [reflexivity | exact H |].
  exact (proj2 (remove_keeps_other_ids (props 0%nat, σ0) "type-small") eq_refl H).
Defined.

(** X6.  Whatever requests to add and to remove a host makes, in whatever
    order, a collection with pairwise different ids stays one; so does the
    empty collection a host starts from. *)
Theorem run_keeps_ids_distinct (s : HostState) (requests : list Request) :
  NoDup (ids (collection s)) → NoDup (ids (collection (run s requests))).
Proof.
  unfold run. revert s. induction requests as [|request requests IH]; intros s Hnd; [done|].
  simpl. apply IH. destruct request; simpl.
  - by apply add_keeps_ids_distinct.
  - by apply remove_keeps_ids_distinct.
Qed.

Lemma run_keeps_ids_distinct_witness :
  NoDup (ids (collection (props 0%nat, ∅)))
  ∧ NoDup (ids (collection (run (props 0%nat, ∅)
                  [Add small; Add custom; Add large; Remove "type-small"; Add custom]))).
Proof.
  assert (H : NoDup (ids (collection (props 0%nat, (∅ : Store))))) by constructor.
  split; [exact H | by apply run_keeps_ids_distinct].
Defined.

(** X7.  In a collection with pairwise different ids, removing an entry by
    its id and adding it again moves it to the end and leaves the others in
    their order. *)
Theorem remove_then_add_moves_last (s : HostState) (f : AppliedFilter.t)
    (l1 l2 : list AppliedFilter.t) :
  onFiltersChange s.1 = true →
  NoDup (ids (collection s)) →
  collection s = l1 ++ f :: l2 →
  collection (add (remove s (idFromFilter f)) f) = l1 ++ l2 ++ [f].
Proof.
  intros Hreg Hnd HC. rewrite HC, ids_app in Hnd.
  apply NoDup_app in Hnd as (_ & Hl1 & Hl2).
  rewrite ids_cons in Hl2. apply NoDup_cons in Hl2 as [Hl2 _].
  assert (Hno1 : ¬ has_id l1 (idFromFilter f)).
  { rewrite has_id_ids. intros Hin. apply (Hl1 _ Hin). rewrite ids_cons. left. }
  assert (Hno2 : ¬ has_id l2 (idFromFilter f)) by by rewrite has_id_ids.
  assert (Hrem : collection (remove s (idFromFilter f)) = l1 ++ l2).
  { rewrite collection_remove, Hreg, HC. by apply without_first_split. }
  rewrite add_new.
  - rewrite collection_with_new, Hrem. by rewrite <- app_assoc.
  - by rewrite registered_remove.
  - rewrite Hrem. by apply not_has_id_app.
Qed.

Lemma remove_then_add_moves_last_witness :
  onFiltersChange (props 0%nat, σ0).1 = true
  ∧ NoDup (ids (collection (props 0%nat, σ0)))
  ∧ collection (props 0%nat, σ0) = [] ++ small :: [before]
  ∧ collection (add (remove (props 0%nat, σ0) (idFromFilter small)) small) = [before; small].
Proof.
  assert (H : NoDup (ids (collection (props 0%nat, σ0)))).
  { compute_done. }
  split_and!; [reflexivity | exact H | reflexivity |].
  exact (remove_then_add_moves_last (props 0%nat, σ0) small [] [before] eq_refl H eq_refl).
Defined.

(** ** More on the label *)

Lemma ret_value {A : Type} (a : A) : (mret a : Traced A).1 = a.
Proof. reflexivity. Qed.

Lemma ret_calls {A : Type} (a : A) : (mret a : Traced A).2 = [].
Proof. reflexivity. Qed.

Lemma findFilterLabelByType_other (host : DateHost) (props : Props)
    (filter : Filter.t) (appliedFilter : AppliedFilter.t) :
  Filter.type filter = OtherType →
  findFilterLabelByType host props filter appliedFilter
  = (AppliedFilter.value appliedFilter, []).
Proof. intros Ht. unfold findFilterLabelByType. by rewrite Ht. Qed.

Lemma findFilterLabelByType_Select (host : DateHost) (props : Props)
    (filter : Filter.t) (appliedFilter : AppliedFilter.t) :
  Filter.type filter = Select →
  findFilterLabelByType host props filter appliedFilter
  = (match JS.find (λ option,
                      match option with
                      | OptionString s => String.eqb s (AppliedFilter.value appliedFilter)
                      | OptionObject value _ =>
                          String.eqb value (AppliedFilter.value appliedFilter)
                      end) (Filter.options filter) with
     | Some (OptionString s) =>
         if negb (String.eqb s "") then s else AppliedFilter.value appliedFilter
     | Some (OptionObject _ label) => label
     | None => AppliedFilter.value appliedFilter
     end, []).
Proof.
  intros Ht. unfold findFilterLabelByType. rewrite Ht. simpl.
  destruct (JS.find _ _) as [[s|v l]|]; simpl; try done.
  by destruct (String.eqb s "").
Qed.

(** X8.  On a definition of type [Select] the label by type is the label
    of the first option whose value is the applied filter's value (a bare
    string is its own value and label), and the raw value when no option has
    that value; the host is not called. *)
Theorem Select_label_first_option (host : DateHost) (props : Props)
    (definition : Filter.t) (appliedFilter : AppliedFilter.t) :
  Filter.type definition = Select →
  let value := AppliedFilter.value appliedFilter in
  (∀ l1 option l2,
     Filter.options definition = l1 ++ option :: l2 →
     (∀ o, o ∈ l1 → option_value o ≠ value) →
     option_value option = value →
     findFilterLabelByType host props definition appliedFilter = (option_label option, []))
  ∧ ((∀ o, o ∈ Filter.options definition → option_value o ≠ value) →
     findFilterLabelByType host props definition appliedFilter = (value, [])).
Proof.
  intros Ht value. rewrite (findFilterLabelByType_Select host props definition appliedFilter Ht).
  fold value.
  set (p := λ option, match option with
                      | OptionString s => String.eqb s value
                      | OptionObject v _ => String.eqb v value
                      end).
  assert (Hp : ∀ o, p o = true ↔ option_value o = value).
  { intros [s|v l]; simpl; apply String.eqb_eq. }
  assert (Hnp : ∀ o, p o = false ↔ option_value o ≠ value).
  { intros o. rewrite <- Hp. by destruct (p o). }
  split.
  - intros l1 o l2 Hopts Hl1 Ho.
    assert (Hf : JS.find p (Filter.options definition) = Some o).
    { apply find_Some. exists l1, l2. split_and!; [done | | by apply Hp].
      apply Forall_forall. intros x Hx. by apply Hnp, Hl1. }
    rewrite Hf. destruct o as [s|v l]; simpl in *; [|done].
    destruct (String.eqb_spec s ""); simpl; congruence.
  - intros Hno.
    assert (Hf : JS.find p (Filter.options definition) = None).
    { apply find_None, Forall_forall. intros x Hx. by apply Hnp, Hno. }
    by rewrite Hf.
Qed.

Lemma Select_label_first_option_witness :
  Filter.type sizes = Select
  ∧ findFilterLabelByType dates (props 0%nat) sizes large = ("Large", [])
  ∧ findFilterLabelByType dates (props 0%nat) sizes before = ("2020-01-15", []).
Proof.
  destruct (Select_label_first_option dates (props 0%nat) sizes large eq_refl) as [Hfound _].
  destruct (Select_label_first_option dates (props 0%nat) sizes before eq_refl) as [_ Hnone].
  split_and!; [reflexivity | |].
  - apply (Hfound [OptionString "small"] (OptionObject "large" "Large") []); [done | | done].
    intros o ->%list_elem_of_singleton. simpl. discriminate.
  - apply Hnone. intros o Ho. simpl in Ho.
    apply elem_of_cons in Ho as [->|Ho]; [simpl; discriminate|].
    apply list_elem_of_singleton in Ho as ->. simpl. discriminate.
Defined.

(** X9.  Only a definition of type [DateSelector] makes the label by type
    call the host, and a catalog without such a definition makes
    [getFilterLabel] call neither [intl] nor [Date]. *)
Theorem host_called_for_dates_only (host : DateHost) (props : Props)
    (appliedFilter : AppliedFilter.t) :
  (∀ definition, Filter.type definition ≠ DateSelector →
     (findFilterLabelByType host props definition appliedFilter).2 = [])
  ∧ ((∀ definition, definition ∈ default [] (filters props) →
                    Filter.type definition ≠ DateSelector) →
     (getFilterLabel host props appliedFilter).2 = []).
Proof.
  assert (Hone : ∀ definition, Filter.type definition ≠ DateSelector →
            (findFilterLabelByType host props definition appliedFilter).2 = []).
  { intros d Ht. destruct (Filter.type d) eqn:E; [| done |].
    - by rewrite findFilterLabelByType_Select.
    - by rewrite findFilterLabelByType_other. }
  split; [exact Hone|]. intros Hcat.
  destruct (JS.truthy (AppliedFilter.label appliedFilter)) eqn:Hl.
  - unfold getFilterLabel. destruct (AppliedFilter.label appliedFilter); [|done].
    by rewrite Hl.
  - rewrite (getFilterLabel_fallthrough host props appliedFilter Hl).
    destruct (findDefinition _ _) as [d|] eqn:Hd; [|done].
    rewrite bind_calls, ret_calls, app_nil_r. apply Hone, Hcat.
    apply find_Some in Hd as (l1 & l2 & -> & _). set_solver.
Qed.

Lemma host_called_for_dates_only_witness :
  Filter.type sizes ≠ DateSelector
  ∧ (findFilterLabelByType dates (props 0%nat) sizes small).2 = [].
Proof.
  assert (H : Filter.type sizes ≠ DateSelector) by (simpl; discriminate).
  split; [exact H|].
  exact (proj1 (host_called_for_dates_only dates (props 0%nat) small) sizes H).
Defined.

Ltac unfold_host :=
  unfold formatDateForLabelDisplay, translate, translationKeyExists, newDate,
    toLocaleDateString, mbind, mret, Traced_bind, Traced_ret, isNaN.

Ltac split_ifs :=
  repeat match goal with
         | |- context [if ?b then _ else _] => destruct b eqn:?
         | |- context [match ?o with Some _ => _ | None => _ end] => destruct o eqn:?
         end.

Ltac invert_calls H :=
  repeat (apply elem_of_cons in H as [H|H]; [simplify_eq|]);
  try (by apply elem_of_nil in H).

(** Either [getFilterLabel] makes no host call, or its calls are those of
    the label by type on a definition of type [DateSelector]. *)
Lemma getFilterLabel_calls (host : DateHost) (props : Props)
    (appliedFilter : AppliedFilter.t) :
  (getFilterLabel host props appliedFilter).2 = []
  ∨ ∃ definition,
      findDefinition (default [] (filters props)) (AppliedFilter.key appliedFilter)
        = Some definition
      ∧ Filter.type definition = DateSelector
      ∧ (getFilterLabel host props appliedFilter).2
        = (findFilterLabelByType host props definition appliedFilter).2.
Proof.
  destruct (JS.truthy (AppliedFilter.label appliedFilter)) eqn:Hl.
  - left. unfold getFilterLabel. destruct (AppliedFilter.label appliedFilter); [|done].
    by rewrite Hl.
  - rewrite (getFilterLabel_fallthrough host props appliedFilter Hl).
    destruct (findDefinition _ _) as [d|] eqn:Hd; [|by left].
    rewrite bind_calls, ret_calls, app_nil_r.
    destruct (Filter.type d) eqn:Ht.
    + left. by rewrite findFilterLabelByType_Select.
    + right. by exists d.
    + left. by rewrite findFilterLabelByType_other.
Qed.

(** X10.  The translations [getFilterLabel] asks for: without replacements,
    only the key built from the applied filter's value, and only when
    [translationKeyExists] answered yes for it; with replacements, only the
    "on or before" and "on or after" keys, with the one replacement
    [date]. *)
Theorem translations_asked (host : DateHost) (props : Props)
    (appliedFilter : AppliedFilter.t) (id : string)
    (replacements : option (list (string * string))) :
  CallTranslate id replacements ∈ (getFilterLabel host props appliedFilter).2 →
  (replacements = None
   ∧ id = "Polaris.ResourceList.DateSelector.FilterLabelForValue."
          +:+ AppliedFilter.value appliedFilter
   ∧ intl_translationKeyExists (intl props) id = true)
  ∨ (∃ date, replacements = Some [("date", date)]
             ∧ (id = "Polaris.ResourceList.DateSelector.FilterLabelForValue.on_or_before"
                ∨ id = "Polaris.ResourceList.DateSelector.FilterLabelForValue.on_or_after")).
Proof.
  destruct (getFilterLabel_calls host props appliedFilter) as [->|(d & _ & Ht & ->)].
  - by intros ?%elem_of_nil.
  - rewrite (findFilterLabelByType_DateSelector host props appliedFilter d Ht).
    unfold_host. split_ifs; simpl; intros H; invert_calls H; eauto.
Qed.

Lemma translations_asked_witness :
  CallTranslate "Polaris.ResourceList.DateSelector.FilterLabelForValue.on_or_before"
    (Some [("date", "1/15/2020")]) ∈ (getFilterLabel dates (props 0%nat) before).2
  ∧ ∃ date, Some [("date", "1/15/2020")] = Some [("date", date)].
Proof.
  assert (H : CallTranslate "Polaris.ResourceList.DateSelector.FilterLabelForValue.on_or_before"
                (Some [("date", "1/15/2020")]) ∈ (getFilterLabel dates (props 0%nat) before).2).
  { simpl. do 3 right. left. }
  split; [exact H|].
  destruct (translations_asked dates (props 0%nat) before _ _ H) as [[? _]|(date & Hr & _)];
    [done | by exists date].
Defined.

(** X11.  [getFilterLabel] calls the host at most four times, and calls
    [translate] at most once. *)
Theorem host_call_budget (host : DateHost) (props : Props)
    (appliedFilter : AppliedFilter.t) :
  let calls := (getFilterLabel host props appliedFilter).2 in
  (length calls ≤ 4)%nat
  ∧ (length (List.filter is_translate calls) ≤ 1)%nat.
Proof.
  intros calls. subst calls.
  destruct (getFilterLabel_calls host props appliedFilter) as [->|(d & _ & Ht & ->)].
  - simpl. split; lia.
  - rewrite (findFilterLabelByType_DateSelector host props appliedFilter d Ht).
    unfold_host. split_ifs; simpl; split; lia.
Qed.

Lemma replace_dashes_id (s : string) :
  (∀ n, String.get n s ≠ Some "-"%char) → JS.replace_dashes s = s.
Proof.
  induction s as [|c s IH]; simpl; [done|]. intros H.
  destruct (Ascii.eqb_spec c "-") as [->|_].
  - by specialize (H 0%nat).
  - f_equal. apply IH. intros n. apply (H (S n)).
Qed.

Lemma replace_dashes_clean (s : string) (n : nat) :
  String.get n (JS.replace_dashes s) ≠ Some "-"%char.
Proof.
  rewrite replace_dashes_get. destruct (String.get n s) as [c|]; simpl; [|done].
  destruct (Ascii.eqb_spec c "-") as [->|Hc]; [done | congruence].
Qed.

(** X12.  The string [formatDateForLabelDisplay] parses the second time has
    no dash left; and for a valid date written without a dash the second
    parse is of the raw string itself, so the result is the locale rendering
    of the date the first parse gave. *)
Theorem formatDate_dashes (host : DateHost) (raw : string) :
  (∀ s, CallNewDate s ∈ (formatDateForLabelDisplay host raw).2 →
        s = raw ∨ ∀ n, String.get n s ≠ Some "-"%char)
  ∧ (∀ time, (∀ n, String.get n raw ≠ Some "-"%char) →
             Date_time host raw = Some time →
             formatDateForLabelDisplay host raw
             = (Date_toLocaleDateString host (Some time),
                [CallNewDate raw; CallNewDate raw; CallToLocaleDateString (Some time)])).
Proof.
  split.
  - intros s. unfold_host. split_ifs; simpl; intros H; invert_calls H; auto.
    right. apply replace_dashes_clean.
  - intros time Hclean Htime. unfold_host.
    by rewrite (replace_dashes_id raw Hclean), Htime.
Qed.

Lemma formatDate_dashes_witness :
  (∀ n, String.get n "2020/01/15" ≠ Some "-"%char)
  ∧ Date_time dates "2020/01/15" = Some 1579064400000
  ∧ (formatDateForLabelDisplay dates "2020/01/15").1 = "1/15/2020".
Proof.
  assert (H : ∀ n, String.get n "2020/01/15" ≠ Some "-"%char).
  { intros n. do 11 (destruct n as [|n]; [simpl; discriminate|]). simpl. discriminate. }
  split_and!; [exact H | reflexivity |].
  by rewrite (proj2 (formatDate_dashes dates "2020/01/15") 1579064400000 H eq_refl).
Defined.

(** X13.  A definition the lookup returns is in the catalog and names the
    key as its [key], [minKey] or [maxKey].  So for a definition of type
    [DateSelector] found under a key that is not its [key], the label by
    type is the "on or before" or the "on or after" phrase: the raw value is
    never what a range key of a date definition shows. *)
Theorem found_definition_names_key (host : DateHost) (props : Props)
    (appliedFilter : AppliedFilter.t) (definition : Filter.t) :
  let key := AppliedFilter.key appliedFilter in
  let date := (formatDateForLabelDisplay host (AppliedFilter.value appliedFilter)).1 in
  findDefinition (default [] (filters props)) key = Some definition →
  definition ∈ default [] (filters props)
  ∧ (Filter.key definition = key
     ∨ Filter.minKey definition = Some key
     ∨ Filter.maxKey definition = Some key)
  ∧ (Filter.type definition = DateSelector → Filter.key definition ≠ key →
     ∃ id, (id = "Polaris.ResourceList.DateSelector.FilterLabelForValue.on_or_before"
            ∨ id = "Polaris.ResourceList.DateSelector.FilterLabelForValue.on_or_after")
           ∧ (findFilterLabelByType host props definition appliedFilter).1
             = intl_translate (intl props) id (Some [("date", date)])).
Proof.
  intros key date Hd.
  apply find_Some in Hd as (l1 & l2 & Hcat & _ & Hm).
  assert (Hk : Filter.key definition = key ∨ Filter.minKey definition = Some key
               ∨ Filter.maxKey definition = Some key).
  { apply matchesKey_governs in Hm. unfold governs in Hm. tauto. }
  split_and!; [rewrite Hcat; apply elem_of_app; right; left | exact Hk |].
  intros Ht Hne.
  rewrite (findFilterLabelByType_DateSelector host props appliedFilter definition Ht).
  fold key. apply String.eqb_neq in Hne as Hne'. rewrite Hne'.
  destruct (JS.strict_eq key (Filter.maxKey definition)) eqn:Emax.
  - eexists. split; [by left|]. by rewrite bind_value.
  - destruct Hk as [?|[Hmin|Hmax]]; [done | |].
    + apply strict_eq_true in Hmin. rewrite Hmin.
      eexists. split; [by right|]. by rewrite bind_value.
    + apply strict_eq_true in Hmax. congruence.
Qed.

Lemma found_definition_names_key_witness :
  findDefinition (default [] (filters (props 0%nat))) (AppliedFilter.key before) = Some created
  ∧ Filter.maxKey created = Some (AppliedFilter.key before)
  ∧ ∃ id, (findFilterLabelByType dates (props 0%nat) created before).1
          = intl_translate en id (Some [("date", "1/15/2020")]).
Proof.
  destruct (found_definition_names_key dates (props 0%nat) before created eq_refl)
    as (_ & _ & H).
  split_and!; [reflexivity | reflexivity |].
  destruct H as (id & _ & Hlabel); [reflexivity | done |]. by exists id.
Defined.

(** ** The rendered applied filters *)

Lemma mapM_value {A B : Type} (f : A → Traced B) (l : list A) :
  (mapM f l).1 = (λ x, (f x).1) <$> l.
Proof.
  induction l as [|x l IH]; [done|].
  change (mapM f (x :: l)) with (y ← f x; k ← mapM f l; mret (y :: k)).
  rewrite bind_value, bind_value, ret_value, IH. done.
Qed.


Lemma appliedFiltersMarkup_value (host : DateHost) (props : Props) (selectMode : bool)
    (σ : Store) :
  (appliedFiltersMarkup host props selectMode σ).1
  = (λ appliedFilter,
       {| item_key := idFromFilter appliedFilter;
          tag_onRemove := RemoveFilter (idFromFilter appliedFilter);
          tag_disabled := selectMode;
          tag_children := (getFilterLabel host props appliedFilter).1 |})
    <$> appliedFilters_elems props σ.
Proof.
  unfold appliedFiltersMarkup. rewrite mapM_value.
  apply list_fmap_ext. intros _ appliedFilter _. by rewrite bind_value.
Qed.



Lemma lookup_without_first (C : list AppliedFilter.t) (i : nat) (g : AppliedFilter.t) :
  NoDup (ids C) → C !! i = Some g → without_first (idFromFilter g) C = delete i C.
Proof.
  revert i. induction C as [|x C IH]; intros i; [done|].
  rewrite ids_cons, NoDup_cons. intros [Hx HC] Hi. simpl.
  destruct i as [|i]; simpl in *.
  - injection Hi as ->. by rewrite String.eqb_refl.
  - destruct (String.eqb_spec (idFromFilter x) (idFromFilter g)) as [Heq|_].
    + exfalso. apply Hx. rewrite Heq. apply list_elem_of_fmap_2.
      by apply list_elem_of_lookup_2 in Hi.
    + f_equal. by apply IH.
Qed.

(** X15.  Calling the [onRemove] of a rendered tag removes the first entry
    of the collection that has the id of the tag's filter, which is at the
    tag's position or before it; when the ids of the collection are pairwise
    different it removes the entry the tag stands for and no other. *)
Theorem press_tag_removes_entry (host : DateHost) (s : HostState) (selectMode : bool)
    (i : nat) (item : AppliedFilterItem) :
  onFiltersChange s.1 = true →
  (appliedFiltersMarkup host s.1 selectMode s.2).1 !! i = Some item →
  (∃ j g, (j ≤ i)%nat
          ∧ collection s !! j = Some g
          ∧ idFromFilter g = item_key item
          ∧ (∀ k, (k < j)%nat → ids (collection s) !! k ≠ Some (item_key item))
          ∧ collection (press s (tag_onRemove item)) = delete j (collection s))
  ∧ (NoDup (ids (collection s)) →
     collection (press s (tag_onRemove item)) = delete i (collection s)).
Proof.
  intros Hreg Hitem.
  rewrite appliedFiltersMarkup_value in Hitem.
  fold (collection s) in Hitem.
  apply list_lookup_fmap_Some_1 in Hitem as (f & -> & Hf). simpl.
  assert (Hpress : collection (press s (RemoveFilter (idFromFilter f)))
                   = without_first (idFromFilter f) (collection s)).
  { change (press s (RemoveFilter (idFromFilter f))) with (remove s (idFromFilter f)).
    by rewrite collection_remove, Hreg. }
  rewrite Hpress. split.
  - assert (Hid : has_id (collection s) (idFromFilter f)).
    { exists f. split; [by apply list_elem_of_lookup_2 in Hf | done]. }
    apply has_id_first in Hid as (l1 & g & l2 & HC & Hl1 & Hg).
    exists (length l1), g.
    assert (Hj : ∀ k, (k < length l1)%nat → ids (collection s) !! k ≠ Some (idFromFilter f)).
    { intros k Hk Hlook. apply Hl1, has_id_ids.
      rewrite HC, ids_app, lookup_app_l in Hlook by (unfold ids; rewrite length_fmap; lia).
      by apply list_elem_of_lookup_2 in Hlook. }
    split_and!.
    + destruct (decide (length l1 ≤ i)%nat) as [|Hlt]; [done|].
      exfalso. apply (Hj i); [lia|]. unfold ids. by rewrite list_lookup_fmap, Hf.
    + rewrite HC. by apply list_lookup_middle.
    + done.
    + exact Hj.
    + rewrite HC. by rewrite without_first_split, delete_middle.
  - intros Hnd. by apply lookup_without_first.
Qed.

Lemma press_tag_removes_entry_witness :
  onFiltersChange (props 0%nat, σ0).1 = true
  ∧ NoDup (ids (collection (props 0%nat, σ0)))
  ∧ ∃ item, (appliedFiltersMarkup dates (props 0%nat) false σ0).1 !! 1%nat = Some item
            ∧ collection (press (props 0%nat, σ0) (tag_onRemove item)) = [small].
Proof.
  assert (H : NoDup (ids (collection (props 0%nat, σ0)))).
  { compute_done. }
  split_and!; [reflexivity | exact H |].
  exists {| item_key := "before-2020-01-15";
            tag_onRemove := RemoveFilter "before-2020-01-15";
            tag_disabled := false;
            tag_children := "Created  on or before 1/15/2020" |}.
  split; [reflexivity|].
  exact (proj2 (press_tag_removes_entry dates (props 0%nat, σ0) false 1%nat _
                  eq_refl eq_refl) H).
Defined.

(** With two entries under one id, the tag of the second removes the
    first. *)
Example press_second_of_two :
  let s := (props 0%nat, {[ 0%nat := [small; before; custom] ]} : Store) in
  ∃ item, (appliedFiltersMarkup dates s.1 false s.2).1 !! 2%nat = Some item
          ∧ collection (press s (tag_onRemove item)) = [before; custom].
Proof. eexists. split; reflexivity. Qed.

(** ** Further compositions and edge cases *)



Lemma without_first_comm (a b : string) (C : list AppliedFilter.t) :
  without_first a (without_first b C) = without_first b (without_first a C).
Proof.
  induction C as [|g C IH]; [done|]. simpl.
  destruct (String.eqb_spec (idFromFilter g) a) as [Ha|Ha],
           (String.eqb_spec (idFromFilter g) b) as [Hb|Hb]; simpl.
  - by subst.
  - apply String.eqb_eq in Ha. by rewrite Ha.
  - apply String.eqb_eq in Hb. by rewrite Hb.
  - apply String.eqb_neq in Ha, Hb. by rewrite Ha, Hb, IH.
Qed.

(** X17.  Two requests to remove give the same collection in either
    order. *)
Theorem remove_commutes (s : HostState) (a b : string) :
  collection (remove (remove s a) b) = collection (remove (remove s b) a).
Proof.
  rewrite !collection_remove, !registered_remove.
  destruct (onFiltersChange s.1); [apply without_first_comm | done].
Qed.

(** X18.  A label override that is the empty string counts as none: the
    applied filter gets the label it would get without a [label]. *)
Theorem empty_override_ignored (host : DateHost) (props : Props) (key value : string) :
  getFilterLabel host props (AppliedFilter.Build key value (Some ""))
  = getFilterLabel host props (AppliedFilter.Build key value None).
Proof.
  rewrite !getFilterLabel_fallthrough by done. simpl.
  destruct (findDefinition _ _) as [d|]; [|done].
  by replace (findFilterLabelByType host props d (AppliedFilter.Build key value (Some "")))
    with (findFilterLabelByType host props d (AppliedFilter.Build key value None)).
Qed.
